(** * The vSphere machine-provider plugin: provider identifiers, lifecycle
      operations and provider-spec validation.

    A shallow embedding of [pkg/vsphere/internal] (the plugin SPI
    implementation) and [pkg/vsphere/apis/validation].  Go strings are byte
    strings and are modelled by [string]; a Go [map[string]string] is a
    [gmap string string] together with the order in which one [range] loop
    happens to yield its keys; run-time panics are an explicit outcome. *)

From Stdlib Require Import Ascii ZArith Lia.
From stdpp Require Import base option list strings gmap fin_maps.

(** ** Go run-time model *)

(** A call either returns a value or panics. *)
Inductive outcome (A : Type) : Type :=
| Returns (a : A)
| Panics.
Arguments Returns {A} a.
Arguments Panics {A}.

Definition obind {A B} (x : outcome A) (f : A → outcome B) : outcome B :=
  match x with
  | Returns a => f a
  | Panics => Panics
  end.

Notation "x ←! e ; k" := (obind e (λ x, k))
  (at level 100, e at next level, k at level 200, right associativity,
   format "x  ←!  e ;  '/' k").

(** Go's [error] values, built by [fmt.Errorf]. *)
Inductive error : Type := Errorf (msg : string).

Global Instance error_eq_dec : EqDecision error.
Proof. solve_decision. Defined.

Module strings.

(** [strings.HasPrefix(s, prefix)] *)
Fixpoint HasPrefix (s prefix : string) : bool :=
  match prefix, s with
  | EmptyString, _ => true
  | String _ _, EmptyString => false
  | String p prefix', String c s' => Ascii.eqb c p && HasPrefix s' prefix'
  end.

(** [strings.Contains(s, substr)]: [substr] starts at some position of [s]. *)
Fixpoint Contains (s substr : string) : bool :=
  HasPrefix s substr ||
  match s with
  | EmptyString => false
  | String _ s' => Contains s' substr
  end.

(** The scan of [strings.Split] for a non-empty separator: [skip] counts the
    bytes of a separator occurrence still to be passed over and [cur] is the
    piece collected since the last separator. *)
Fixpoint genSplit (sep s : string) (skip : nat) (cur : string) : list string :=
  match s with
  | EmptyString => [cur]
  | String c s' =>
      match skip with
      | S k => genSplit sep s' k cur
      | O =>
          if HasPrefix s sep
          then cur :: genSplit sep s' (String.length sep - 1) EmptyString
          else genSplit sep s' 0 (cur +:+ String c EmptyString)
      end
  end.

(** [strings.Split(s, sep)].  With an empty separator Go cuts after every
    UTF-8 sequence; on the byte strings modelled here that is after every
    byte. *)
Definition Split (s sep : string) : list string :=
  match sep with
  | EmptyString => (λ c, String c EmptyString) <$> String.list_ascii_of_string s
  | _ => genSplit sep s 0 EmptyString
  end.

End strings.

(** The slice expression [s[n:]]; it panics when [n] exceeds [len(s)]. *)
Fixpoint slice_from (s : string) (n : nat) : outcome string :=
  match n, s with
  | O, _ => Returns s
  | S _, EmptyString => Panics
  | S n', String _ s' => slice_from s' n'
  end.

(** The index expression [parts[i]]; it panics out of range. *)
Definition index {A} (parts : list A) (i : nat) : outcome A :=
  match parts !! i with
  | Some x => Returns x
  | None => Panics
  end.

(** ** The identifier codec *)

Definition providerPrefix : string := "vsphere://".

(** [fmt.Sprintf("%s%s/%s", providerPrefix, region, machineID)] *)
Definition encodeProviderID (region machineID : string) : string :=
  if decide (machineID = "") then ""
  else providerPrefix +:+ region +:+ "/" +:+ machineID.

Definition decodeProviderID (providerID : string) : outcome (string * string) :=
  if negb (strings.HasPrefix providerID providerPrefix) then Returns ("", "")
  else
    rest ←! slice_from providerID (String.length providerPrefix);
    let parts := strings.Split rest "/" in
    if negb (length parts =? 2)%nat then Returns ("", "")
    else
      region ←! index parts 0;
      machineID ←! index parts 1;
      Returns (region, machineID).

(** ** API types *)

(** Modelled from the spec: the declarations of [api.VsphereProviderSpec] and
    [api.Secrets] live in the [apis] package; these are the fields that the
    plugin and the validation read: the region, the storage, template,
    compute-placement and network selectors, and the tag map. *)
Record VsphereProviderSpec : Type := {
  Region : string;
  Datastore : string;
  DatastoreCluster : string;
  TemplateVM : string;
  ComputeCluster : string;
  ResourcePool : string;
  HostSystem : string;
  Network : string;
  Tags : gmap string string
}.

Record Secrets : Type := {
  VsphereHost : string;
  VsphereUsername : string;
  VspherePassword : string;
  VsphereInsecureSSL : bool;
  UserData : string
}.

(** A [for key := range m] loop visits every key of [m] exactly once, in an
    order the language leaves open: [keys] is one such order. *)
Definition range_order (m : gmap string string) (keys : list string) : Prop :=
  keys ≡ₚ (map_to_list m).*1.

Global Instance range_order_dec m keys : Decision (range_order m keys).
Proof. unfold range_order. apply _. Defined.

(** ** Provider-spec validation (pkg/vsphere/apis/validation) *)

Module validation.

(** One iteration of the loop over the tag keys. *)
Definition tagsStep (acc : string * string) (key : string) : string * string :=
  let '(clusterName, nodeRole) := acc in
  if strings.Contains key "kubernetes.io/cluster/" then (key, nodeRole)
  else if strings.Contains key "kubernetes.io/role/" then (clusterName, key)
  else (clusterName, nodeRole).

Definition validateSpecTags (tags : gmap string string) (keys : list string) : list error :=
  let allErrs : list error := [] in
  let '(clusterName, nodeRole) := fold_left tagsStep keys ("", "") in
  let allErrs :=
    if decide (clusterName = "")
    then allErrs ++ [Errorf "tag required of the form kubernetes.io/cluster/****"]
    else allErrs in
  let allErrs :=
    if decide (nodeRole = "")
    then allErrs ++ [Errorf "tag required of the form kubernetes.io/role/****"]
    else allErrs in
  allErrs.

Definition validateSecrets (reference : Secrets) : list error :=
  let allErrs : list error := [] in
  let allErrs :=
    if decide ("" = VsphereHost reference)
    then allErrs ++ [Errorf "Secret vsphereHost is required field"] else allErrs in
  let allErrs :=
    if decide ("" = VsphereUsername reference)
    then allErrs ++ [Errorf "Secret vsphereUsername is required field"] else allErrs in
  let allErrs :=
    if decide ("" = VspherePassword reference)
    then allErrs ++ [Errorf "Secret vspherePassword is required field"] else allErrs in
  let allErrs :=
    if decide ("" = UserData reference)
    then allErrs ++ [Errorf "Secret userData is required field"] else allErrs in
  allErrs.

(** [keys] is the order in which the loop of [validateSpecTags] ranges over
    [spec.Tags]. *)
Definition ValidateVsphereProviderSpec (spec : VsphereProviderSpec) (secrets : Secrets)
    (keys : list string) : list error :=
  let allErrs : list error := [] in
  let allErrs :=
    if decide ("" = Datastore spec ∧ "" = DatastoreCluster spec)
    then allErrs ++ [Errorf "either datastoreCluster or datastore field is required"]
    else allErrs in
  let allErrs :=
    if decide ("" = TemplateVM spec)
    then allErrs ++ [Errorf "templateVM is a required field"] else allErrs in
  let allErrs :=
    if decide ("" = ComputeCluster spec ∧ "" = ResourcePool spec ∧ "" = HostSystem spec)
    then allErrs ++ [Errorf "either computeCluster or resourcePool or hostSystem field is required"]
    else allErrs in
  let allErrs :=
    if decide ("" = Network spec)
    then allErrs ++ [Errorf "network is a required field"] else allErrs in
  let allErrs := allErrs ++ validateSecrets secrets in
  let allErrs := allErrs ++ validateSpecTags (Tags spec) keys in
  allErrs.

End validation.

(** ** Platform SDK types (govmomi) *)

(** [types.CustomFieldDef]: the definition of a custom field, keyed by an
    [int32]. *)
Record CustomFieldDef : Type := {
  FieldKey : Z;
  FieldName : string
}.

(** [object.CustomFieldDefList.ByKey]: the first definition with the given
    key, [nil] when there is none. *)
Fixpoint ByKey (l : list CustomFieldDef) (key : Z) : option CustomFieldDef :=
  match l with
  | [] => None
  | def :: l' => if decide (FieldKey def = key) then Some def else ByKey l' key
  end.

(** [types.BaseCustomFieldValue]: the interface has two implementations. *)
Inductive BaseCustomFieldValue : Type :=
| CustomFieldValue (Key : Z)
| CustomFieldStringValue (Key : Z) (Value : string).

(** [mo.ManagedEntity], the properties the plugin reads. *)
Record ManagedEntity : Type := {
  Name : string;
  CustomValue : list BaseCustomFieldValue
}.

(** A loop whose body may panic. *)
Fixpoint ofold {A B} (f : A → B → outcome A) (acc : A) (l : list B) : outcome A :=
  match l with
  | [] => Returns acc
  | x :: l' => acc' ←! f acc x; ofold f acc' l'
  end.

(** ** The plugin SPI implementation (pkg/vsphere/internal) *)

Module internal.

Section PluginSPIImpl.

(** The state of the virtualization platform, a logged-in client, a parsed
    URL and a handle on a virtual machine. *)
Context {World Client URL VirtualMachine : Type}.

(** The closure handed to [visitVirtualMachines]: it reads the platform and
    updates the [machineList] it captured. *)
Definition visitorT : Type :=
  VirtualMachine → ManagedEntity → list CustomFieldDef → World →
  gmap string string → outcome (option error * gmap string string).

(** [url.Parse], and the assignment of [url.UserPassword(..)] to [URL.User]. *)
Variable url_Parse : string → URL + error.
Variable url_UserPassword : URL → string → string → URL.
(** [govmomi.NewClient], [Client.Logout] and [VirtualMachine.UUID]. *)
Variable govmomi_NewClient : URL → bool → World → (Client + error) * World.
Variable Logout : Client → World → World.
Variable UUID : VirtualMachine → World → string.
(** The helpers of the package that resolve and act on one machine, and the
    scan of all machines of the data center or folder. *)
Variable deleteVM :
  Client → VsphereProviderSpec → string → string → World → (string * option error) * World.
Variable shutDownVM :
  Client → VsphereProviderSpec → string → string → World → (string * option error) * World.
Variable findVM :
  Client → VsphereProviderSpec → string → string → World →
  (option VirtualMachine * option error) * World.
Variable visitVirtualMachines :
  Client → VsphereProviderSpec → visitorT → gmap string string → World →
  outcome (option error * gmap string string) * World.

(** [defer cleanup()]: the clean-up runs when the body is left, also by a
    panic. *)
Definition defer {A} (cleanup : World → World) (body : World → outcome A * World)
    : World → outcome A * World :=
  λ w, let '(r, w) := body w in (r, cleanup w).

Definition createVsphereClient (secret : Secrets) (w : World) : (Client + error) * World :=
  match url_Parse ("https://" +:+ VsphereHost secret +:+ "/sdk") with
  | inr err => (inr err, w)
  | inl clientURL =>
      let clientURL :=
        url_UserPassword clientURL (VsphereUsername secret) (VspherePassword secret) in
      govmomi_NewClient clientURL (VsphereInsecureSSL secret) w
  end.

Definition DeleteMachine (machineName providerID : string)
    (providerSpec : VsphereProviderSpec) (secrets : Secrets)
    : World → outcome (string * option error) * World :=
  λ w,
  match createVsphereClient secrets w with
  | (inr err, w) => (Returns ("", Some err), w)
  | (inl client, w) =>
      defer (Logout client) (λ w,
        match decodeProviderID providerID with
        | Panics => (Panics, w)
        | Returns (_, machineID) =>
            let '((foundMachineID, err), w) :=
              deleteVM client providerSpec machineName machineID w in
            match err with
            | Some err => (Returns ("", Some err), w)
            | None =>
                let foundProviderID := encodeProviderID (Region providerSpec) foundMachineID in
                (Returns (foundProviderID, None), w)
            end
        end) w
  end.

Definition ShutDownMachine (machineName providerID : string)
    (providerSpec : VsphereProviderSpec) (secrets : Secrets)
    : World → outcome (string * option error) * World :=
  λ w,
  match createVsphereClient secrets w with
  | (inr err, w) => (Returns ("", Some err), w)
  | (inl client, w) =>
      defer (Logout client) (λ w,
        match decodeProviderID providerID with
        | Panics => (Panics, w)
        | Returns (_, machineID) =>
            let '((foundMachineID, err), w) :=
              shutDownVM client providerSpec machineName machineID w in
            match err with
            | Some err => (Returns ("", Some err), w)
            | None =>
                let foundProviderID := encodeProviderID (Region providerSpec) foundMachineID in
                (Returns (foundProviderID, None), w)
            end
        end) w
  end.

(** [vm.UUID(ctx)] dereferences the machine handle: a [nil] handle returned
    together with a [nil] error panics. *)
Definition GetMachineStatus (machineName providerID : string)
    (providerSpec : VsphereProviderSpec) (secrets : Secrets)
    : World → outcome (string * option error) * World :=
  λ w,
  match createVsphereClient secrets w with
  | (inr err, w) => (Returns ("", Some err), w)
  | (inl client, w) =>
      defer (Logout client) (λ w,
        match decodeProviderID providerID with
        | Panics => (Panics, w)
        | Returns (_, machineID) =>
            let '((vm, err), w) := findVM client providerSpec machineName machineID w in
            match err with
            | Some err => (Returns ("", Some err), w)
            | None =>
                match vm with
                | None => (Panics, w)
                | Some vm =>
                    let foundMachineID := UUID vm w in
                    let foundProviderID :=
                      encodeProviderID (Region providerSpec) foundMachineID in
                    (Returns (foundProviderID, None), w)
                end
            end
        end) w
  end.

(** One iteration of the loop of [ListMachines] over [providerSpec.Tags]. *)
Definition tagKeysStep (acc : string * string) (key : string) : string * string :=
  let '(clusterName, nodeRole) := acc in
  if strings.HasPrefix key "kubernetes.io/cluster/" then (key, nodeRole)
  else if strings.HasPrefix key "kubernetes.io/role/" then (clusterName, key)
  else (clusterName, nodeRole).

(** One iteration of the visitor's loop over [obj.CustomValue]: the type
    assertion panics on a value that is no [CustomFieldStringValue], and
    [.Name] panics on the [nil] that [ByKey] returns for an unknown key. *)
Definition customValueStep (clusterName nodeRole : string) (field : list CustomFieldDef)
    (acc : bool * bool) (cv : BaseCustomFieldValue) : outcome (bool * bool) :=
  let '(matchedCluster, matchedRole) := acc in
  match cv with
  | CustomFieldValue _ => Panics
  | CustomFieldStringValue Key _ =>
      match ByKey field Key with
      | None => Panics
      | Some def =>
          if decide (FieldName def = clusterName) then Returns (true, matchedRole)
          else if decide (FieldName def = nodeRole) then Returns (matchedCluster, true)
          else Returns (matchedCluster, matchedRole)
      end
  end.

Definition visitor (providerSpec : VsphereProviderSpec) (clusterName nodeRole : string)
    : visitorT :=
  λ vm obj field w machineList,
  matched ←! ofold (customValueStep clusterName nodeRole field) (false, false)
               (CustomValue obj);
  let '(matchedCluster, matchedRole) := matched in
  if matchedCluster && matchedRole then
    let uuid := UUID vm w in
    let providerID := encodeProviderID (Region providerSpec) uuid in
    Returns (None, <[providerID := Name obj]> machineList)
  else Returns (None, machineList).

(** [keys] is the order in which the loop ranges over [providerSpec.Tags];
    a [nil] map is [None]. *)
Definition ListMachines (providerSpec : VsphereProviderSpec) (secrets : Secrets)
    (keys : list string)
    : World → outcome (option (gmap string string) * option error) * World :=
  λ w,
  match createVsphereClient secrets w with
  | (inr err, w) => (Returns (None, Some err), w)
  | (inl client, w) =>
      defer (Logout client) (λ w,
        let machineList : gmap string string := ∅ in
        let '(clusterName, nodeRole) := fold_left tagKeysStep keys ("", "") in
        if decide (clusterName = "" ∨ nodeRole = "") then
          (Returns (Some machineList, None), w)
        else
          match visitVirtualMachines client providerSpec
                  (visitor providerSpec clusterName nodeRole) machineList w with
          | (Panics, w) => (Panics, w)
          | (Returns (Some err, _), w) => (Returns (None, Some err), w)
          | (Returns (None, machineList), w) => (Returns (Some machineList, None), w)
          end) w
  end.

(** The clone command of the package: [newClone] builds it from the machine
    name, the provider spec and the user data, [Run] executes it on the
    platform and records the new machine in the field [Clone]. *)
Context {Cmd : Type}.
Variable newClone : string → VsphereProviderSpec → string → Cmd.
Variable Run : Cmd → Client → World → (Cmd * option error) * World.
Variable Clone : Cmd → option VirtualMachine.

(** [cmd.Clone.UUID(ctx)] dereferences the cloned machine: a [nil] clone left
    by a run without error panics. *)
Definition CreateMachine (machineName : string)
    (providerSpec : VsphereProviderSpec) (secrets : Secrets)
    : World → outcome (string * option error) * World :=
  λ w,
  match createVsphereClient secrets w with
  | (inr err, w) => (Returns ("", Some err), w)
  | (inl client, w) =>
      defer (Logout client) (λ w,
        let cmd := newClone machineName providerSpec (UserData secrets) in
        let '((cmd, err), w) := Run cmd client w in
        match err with
        | Some err => (Returns ("", Some err), w)
        | None =>
            match Clone cmd with
            | None => (Panics, w)
            | Some vm =>
                let machineID := UUID vm w in
                let providerID := encodeProviderID (Region providerSpec) machineID in
                (Returns (providerID, None), w)
            end
        end) w
  end.

End PluginSPIImpl.

End internal.

(** ** The platform collaborator *)

Module platform.

(** Modelled from the spec: the virtualization platform behind the SDK is not
    part of the sources.  A machine of the placement scope has a managed
    object reference, a native id (UUID), its managed-entity properties, a
    power state, and the fault, if any, with which the platform rejects a
    power-off or destroy request for it. *)
Record Machine : Type := {
  moref : nat;
  uuid : string;
  entity : ManagedEntity;
  poweredOn : bool;
  fault : option error
}.

(** Modelled from the spec: the platform state is the machines of the
    placement scope, the custom-field definitions, the fault, if any, with which
    the platform refuses a login (AuthError, ConnectError), and the number of
    open sessions. *)
Record Inventory : Type := {
  machines : list Machine;
  fieldDefs : list CustomFieldDef;
  loginFault : option error;
  sessions : nat
}.

Definition with_machines (inv : Inventory) (ms : list Machine) : Inventory :=
  {| machines := ms; fieldDefs := fieldDefs inv;
     loginFault := loginFault inv; sessions := sessions inv |}.

Definition with_sessions (inv : Inventory) (n : nat) : Inventory :=
  {| machines := machines inv; fieldDefs := fieldDefs inv;
     loginFault := loginFault inv; sessions := n |}.

(** [url.Parse] of the Go standard library, as far as this platform needs
    it: a raw URL that holds an ASCII control byte is rejected, every other one
    is accepted, the parsed URL being the raw text. *)
Definition isCTL (c : ascii) : bool :=
  (nat_of_ascii c <? 32)%nat || (nat_of_ascii c =? 127)%nat.

Definition url_Parse (rawurl : string) : string + error :=
  if existsb isCTL (String.list_ascii_of_string rawurl)
  then inr (Errorf "net/url: invalid control character in URL")
  else inl rawurl.

Definition url_UserPassword (u : string) (username password : string) : string :=
  username +:+ ":" +:+ password +:+ "@" +:+ u.

(** Modelled from the spec: [OpenSession(credentials)] yields a session or
    fails with the platform's login fault; [Session.Close()] releases it.  A
    client is the number of its session. *)
Definition NewClient (u : string) (insecure : bool) (inv : Inventory)
    : (nat + error) * Inventory :=
  match loginFault inv with
  | Some err => (inr err, inv)
  | None => (inl (sessions inv), with_sessions inv (S (sessions inv)))
  end.

Definition Logout (client : nat) (inv : Inventory) : Inventory :=
  with_sessions inv (pred (sessions inv)).

(** Modelled from the spec: a native machine reference is the platform's
    handle together with its native id and display name; the handle is the
    machine record, from which the native id is read. *)
Definition UUID (vm : Machine) (inv : Inventory) : string := uuid vm.

(** The result of resolving a logical machine. *)
Inductive resolution : Type :=
| Found (m : Machine)
| NotFound
| AmbiguousName.

(** Modelled from the spec: [LookupByNativeId(session, scope, id)]. *)
Definition LookupByNativeId (inv : Inventory) (id : string) : option Machine :=
  head (filter (λ m, uuid m = id) (machines inv)).

(** Modelled from the spec: [LookupByName(session, scope, name)] tolerates
    zero or one match; more than one match is an ambiguous name. *)
Definition LookupByName (inv : Inventory) (name : string) : resolution :=
  match filter (λ m, Name (entity m) = name) (machines inv) with
  | [] => NotFound
  | [m] => Found m
  | _ => AmbiguousName
  end.

(** Modelled from the spec: the discovery of one machine (section 4.2, steps
    1 and 2): a non-empty native id is looked up first, the name is the
    fallback. *)
Definition resolve (inv : Inventory) (machineName machineID : string) : resolution :=
  match (if decide (machineID = "") then None else LookupByNativeId inv machineID) with
  | Some m => Found m
  | None => LookupByName inv machineName
  end.

Definition AmbiguousNameError : error := Errorf "ambiguous machine name".
Definition MachineNotFound : error := Errorf "machine not found".

(** Modelled from the spec: the helper [findVM] is not part of the sources;
    it resolves the machine and reports an absent one by a not-found signal. *)
Definition findVM (client : nat) (spec : VsphereProviderSpec)
    (machineName machineID : string) (inv : Inventory)
    : (option Machine * option error) * Inventory :=
  match resolve inv machineName machineID with
  | Found m => ((Some m, None), inv)
  | NotFound => ((None, Some MachineNotFound), inv)
  | AmbiguousName => ((None, Some AmbiguousNameError), inv)
  end.

(** Modelled from the spec: the helper [deleteVM] is not part of the sources;
    it resolves the machine, destroys it if found, and treats an absent
    machine as success with the empty native id. *)
Definition deleteVM (client : nat) (spec : VsphereProviderSpec)
    (machineName machineID : string) (inv : Inventory)
    : (string * option error) * Inventory :=
  match resolve inv machineName machineID with
  | Found m =>
      match fault m with
      | Some err => (("", Some err), inv)
      | None =>
          ((uuid m, None),
           with_machines inv (filter (λ m', moref m' ≠ moref m) (machines inv)))
      end
  | NotFound => (("", None), inv)
  | AmbiguousName => (("", Some AmbiguousNameError), inv)
  end.

Definition powerOff (m : Machine) : Machine :=
  {| moref := moref m; uuid := uuid m; entity := entity m;
     poweredOn := false; fault := fault m |}.

(** Modelled from the spec: the helper [shutDownVM] is not part of the
    sources; it resolves the machine and powers it off, a machine that is
    already off or already absent being a success. *)
Definition shutDownVM (client : nat) (spec : VsphereProviderSpec)
    (machineName machineID : string) (inv : Inventory)
    : (string * option error) * Inventory :=
  match resolve inv machineName machineID with
  | Found m =>
      if poweredOn m then
        match fault m with
        | Some err => (("", Some err), inv)
        | None =>
            ((uuid m, None),
             with_machines inv
               ((λ m', if decide (moref m' = moref m) then powerOff m' else m')
                  <$> machines inv))
        end
      else ((uuid m, None), inv)
  | NotFound => (("", None), inv)
  | AmbiguousName => (("", Some AmbiguousNameError), inv)
  end.

(** The scan loop over the machines still to visit. *)
Fixpoint scan (visitor : @internal.visitorT Inventory Machine) (inv : Inventory)
    (ms : list Machine) (st : gmap string string)
    : outcome (option error * gmap string string) :=
  match ms with
  | [] => Returns (None, st)
  | m :: ms' =>
      r ←! visitor m (entity m) (fieldDefs inv) inv st;
      match r with
      | (Some err, st') => Returns (Some err, st')
      | (None, st') => scan visitor inv ms' st'
      end
  end.

(** Modelled from the spec: the helper [visitVirtualMachines] is not part of
    the sources; it invokes the visitor for every machine in scope and stops
    at the first error the visitor returns. *)
Definition visitVirtualMachines (client : nat) (spec : VsphereProviderSpec)
    (visitor : @internal.visitorT Inventory Machine) (st : gmap string string)
    (inv : Inventory)
    : outcome (option error * gmap string string) * Inventory :=
  (scan visitor inv (machines inv) st, inv).

(** Modelled from the spec: the clone command is not part of the sources;
    [CloneTemplate(session, spec, name, userData)] yields a new machine of the
    given name.  The spec leaves the choice of the native id and the clone
    faults to the platform: here the id is derived from the name and the
    clone succeeds. *)
Record clone : Type := {
  cloneName : string;
  cloned : option Machine
}.

Definition newClone (machineName : string) (spec : VsphereProviderSpec)
    (userData : string) : clone :=
  {| cloneName := machineName; cloned := None |}.

Definition Run (cmd : clone) (client : nat) (inv : Inventory)
    : (clone * option error) * Inventory :=
  let m := {| moref := S (list_max (moref <$> machines inv));
              uuid := "uuid-" +:+ cloneName cmd;
              entity := {| Name := cloneName cmd; CustomValue := [] |};
              poweredOn := true; fault := None |} in
  (({| cloneName := cloneName cmd; cloned := Some m |}, None),
   with_machines inv (machines inv ++ [m])).

(** The operations of the plugin on this platform. *)
Definition createVsphereClient :=
  internal.createVsphereClient url_Parse url_UserPassword NewClient.
Definition DeleteMachine :=
  internal.DeleteMachine url_Parse url_UserPassword NewClient Logout deleteVM.
Definition ShutDownMachine :=
  internal.ShutDownMachine url_Parse url_UserPassword NewClient Logout shutDownVM.
Definition GetMachineStatus :=
  internal.GetMachineStatus url_Parse url_UserPassword NewClient Logout UUID findVM.
Definition ListMachines :=
  internal.ListMachines url_Parse url_UserPassword NewClient Logout UUID
    visitVirtualMachines.
Definition CreateMachine :=
  internal.CreateMachine url_Parse url_UserPassword NewClient Logout UUID
    newClone Run cloned.

End platform.

(** ** Vocabulary of the statements *)

(** The number of ['/'] bytes of a string. *)
Fixpoint slashes (s : string) : nat :=
  match s with
  | EmptyString => 0
  | String c s' => (if Ascii.eqb c "/" then 1 else 0) + slashes s'
  end.

(** [providerID] is the scheme prefix followed by exactly two segments
    separated by a ['/']. *)
Definition two_segments (providerID region machineID : string) : Prop :=
  providerID = providerPrefix +:+ region +:+ "/" +:+ machineID ∧
  slashes region = 0 ∧ slashes machineID = 0.

(** The two prefixes of the distinguished tag keys. *)
Local Abbreviation clusterPrefix := "kubernetes.io/cluster/" (only parsing).
Local Abbreviation rolePrefix := "kubernetes.io/role/" (only parsing).

(** The tag map has no key that starts with [prefix]. *)
Definition lacks_key (tags : gmap string string) (prefix : string) : Prop :=
  ∀ key, is_Some (tags !! key) → strings.HasPrefix key prefix = false.

(** The tag map has at most one key that starts with [prefix]. *)
Definition at_most_one_key (tags : gmap string string) (prefix : string) : Prop :=
  ∀ k1 k2, is_Some (tags !! k1) → is_Some (tags !! k2) →
    strings.HasPrefix k1 prefix = true → strings.HasPrefix k2 prefix = true → k1 = k2.

(** The names of the custom fields for which a machine carries a value: its
    tag keys. *)
Definition fieldNames (field : list CustomFieldDef) (obj : ManagedEntity) : list string :=
  omap (λ cv, match cv with
              | CustomFieldStringValue Key _ => FieldName <$> ByKey field Key
              | CustomFieldValue _ => None
              end) (CustomValue obj).

(** A non-empty provider identifier minted for [region]. *)
Definition minted_for (region providerID : string) : Prop :=
  providerID = "" ∨
  ∃ machineID, machineID ≠ "" ∧
    providerID = providerPrefix +:+ region +:+ "/" +:+ machineID.

(** The keys of the tag map other than [k1] and [k2], in some order: an
    iteration may visit them first and the two keys last, in either order. *)
Definition others (tags : gmap string string) (k1 k2 : string) : list string :=
  filter (λ k, k ≠ k1 ∧ k ≠ k2) ((map_to_list tags).*1).

(** A machine carries values for the custom fields named [c] and [r]. *)
Definition tagged_with (field : list CustomFieldDef) (c r : string)
    (m : platform.Machine) : Prop :=
  c ∈ fieldNames field (platform.entity m) ∧ r ∈ fieldNames field (platform.entity m).

(** A custom value the visitor can read: a string value whose key has a
    field definition. *)
Definition well_defined (field : list CustomFieldDef) (cv : BaseCustomFieldValue) : Prop :=
  match cv with
  | CustomFieldStringValue Key _ => is_Some (ByKey field Key)
  | CustomFieldValue _ => False
  end.

Global Instance well_defined_dec field cv : Decision (well_defined field cv).
Proof. destruct cv; apply _. Defined.

(** The tag map has a key that starts with [prefix]. *)
Definition has_key (tags : gmap string string) (prefix : string) : Prop :=
  ∃ key, is_Some (tags !! key) ∧ strings.HasPrefix key prefix = true.

(** ** Concrete scenarios *)

Module scenario.

Definition secrets : Secrets :=
  {| VsphereHost := "vcenter.local"; VsphereUsername := "admin";
     VspherePassword := "secret"; VsphereInsecureSSL := true; UserData := "#cloud-config" |}.

Definition spec_with (region : string) (tags : gmap string string) : VsphereProviderSpec :=
  {| Region := region; Datastore := "ds1"; DatastoreCluster := ""; TemplateVM := "tpl";
     ComputeCluster := "cl1"; ResourcePool := ""; HostSystem := ""; Network := "net1";
     Tags := tags |}.

(** Tag keys that hold the two distinguished strings in their interior only. *)
Definition interior_tags : gmap string string :=
  {[ "x-kubernetes.io/cluster/c" := "1"; "x-kubernetes.io/role/r" := "1" ]}.

(** One cluster key and one role key. *)
Definition tags_a : gmap string string :=
  {[ "kubernetes.io/cluster/a" := "1"; "kubernetes.io/role/r" := "1" ]}.

(** Two cluster keys and one role key. *)
Definition tags_ab : gmap string string :=
  {[ "kubernetes.io/cluster/a" := "1"; "kubernetes.io/cluster/b" := "1";
     "kubernetes.io/role/r" := "1" ]}.

Definition fields : list CustomFieldDef :=
  [ {| FieldKey := 10; FieldName := "kubernetes.io/cluster/a" |};
    {| FieldKey := 11; FieldName := "kubernetes.io/role/r" |};
    {| FieldKey := 12; FieldName := "kubernetes.io/cluster/b" |} ].

(** A machine tagged for cluster [a] and role [r]. *)
Definition machine_a : platform.Machine :=
  {| platform.moref := 1; platform.uuid := "uuid-1";
     platform.entity :=
       {| Name := "vm-1";
          CustomValue := [CustomFieldStringValue 10 "1"; CustomFieldStringValue 11 "1"] |};
     platform.poweredOn := true; platform.fault := None |}.

(** A machine tagged for cluster [b] and role [r]. *)
Definition machine_b : platform.Machine :=
  {| platform.moref := 2; platform.uuid := "uuid-2";
     platform.entity :=
       {| Name := "vm-2";
          CustomValue := [CustomFieldStringValue 12 "1"; CustomFieldStringValue 11 "1"] |};
     platform.poweredOn := true; platform.fault := None |}.

Definition inventory (ms : list platform.Machine) : platform.Inventory :=
  {| platform.machines := ms; platform.fieldDefs := fields;
     platform.loginFault := None; platform.sessions := 0 |}.

(** A platform state with one machine, which carries the custom fields named
    [clusterName] and [nodeRole]. *)
Definition probe (clusterName nodeRole : string) : platform.Inventory :=
  {| platform.machines :=
       [ {| platform.moref := 1; platform.uuid := "uuid-1";
            platform.entity :=
              {| Name := "vm-1";
                 CustomValue := [CustomFieldStringValue 1 "1"; CustomFieldStringValue 2 "1"] |};
            platform.poweredOn := true; platform.fault := None |} ];
     platform.fieldDefs :=
       [ {| FieldKey := 1; FieldName := clusterName |};
         {| FieldKey := 2; FieldName := nodeRole |} ];
     platform.loginFault := None; platform.sessions := 0 |}.

End scenario.

(** * Properties *)

(** ** Strings *)

Lemma append_cons c s t : String c s +:+ t = String c (s +:+ t).
Proof. reflexivity. Qed.

Lemma append_nil_l s : "" +:+ s = s.
Proof. reflexivity. Qed.

Lemma append_nil_r s : s +:+ "" = s.
Proof. induction s as [|c s IH]; [done|]. by rewrite append_cons, IH. Qed.

Lemma append_assoc s t u : (s +:+ t) +:+ u = s +:+ t +:+ u.
Proof. induction s as [|c s IH]; [done|]. by rewrite !append_cons, IH. Qed.

Lemma slashes_app s t : slashes (s +:+ t) = slashes s + slashes t.
Proof.
  induction s as [|c s IH]; [done|].
  rewrite append_cons. simpl. rewrite IH. lia.
Qed.

Lemma HasPrefix_app p s : strings.HasPrefix (p +:+ s) p = true.
Proof.
  induction p as [|c p IH]; [by destruct s|].
  rewrite append_cons. simpl. by rewrite Ascii.eqb_refl, IH.
Qed.

Lemma HasPrefix_inv s p :
  strings.HasPrefix s p = true → ∃ rest, s = p +:+ rest.
Proof.
  revert s. induction p as [|c p IH]; intros s H.
  - by exists s.
  - destruct s as [|d s]; [done|]. simpl in H.
    apply andb_true_iff in H as [Hc Hp]. apply Ascii.eqb_eq in Hc as ->.
    destruct (IH _ Hp) as [rest ->]. by exists rest.
Qed.

Lemma slice_from_app p s : slice_from (p +:+ s) (String.length p) = Returns s.
Proof. induction p as [|c p IH]; [by destruct s|]. by rewrite append_cons. Qed.

(** One step of the scan for the separator ["/"]. *)
Lemma genSplit_slash_cons c s cur :
  strings.genSplit "/" (String c s) 0 cur =
  if Ascii.eqb c "/" then cur :: strings.genSplit "/" s 0 ""
  else strings.genSplit "/" s 0 (cur +:+ String c "").
Proof. simpl. destruct (Ascii.eqb c "/"); [|done]. by destruct s. Qed.

Lemma genSplit_slash_length s cur :
  length (strings.genSplit "/" s 0 cur) = S (slashes s).
Proof.
  revert cur. induction s as [|c s IH]; intros cur; [done|].
  rewrite genSplit_slash_cons. cbn [slashes].
  destruct (Ascii.eqb c "/"); simpl; by rewrite IH.
Qed.

Lemma genSplit_no_slash s cur :
  slashes s = 0 → strings.genSplit "/" s 0 cur = [cur +:+ s].
Proof.
  revert cur. induction s as [|c s IH]; intros cur H.
  - by rewrite append_nil_r.
  - rewrite genSplit_slash_cons. cbn [slashes] in H.
    destruct (Ascii.eqb c "/"); [lia|].
    rewrite IH by lia. by rewrite append_assoc.
Qed.

Lemma genSplit_two r m cur :
  slashes r = 0 → slashes m = 0 →
  strings.genSplit "/" (r +:+ "/" +:+ m) 0 cur = [cur +:+ r; m].
Proof.
  revert cur. induction r as [|c r IH]; intros cur Hr Hm.
  - rewrite append_nil_l, append_nil_r.
    change ("/" +:+ m) with (String "/" m).
    rewrite genSplit_slash_cons. simpl. by rewrite genSplit_no_slash.
  - rewrite append_cons, genSplit_slash_cons. cbn [slashes] in Hr.
    destruct (Ascii.eqb c "/"); [lia|].
    rewrite IH by lia. by rewrite append_assoc.
Qed.

(** A string with exactly one ['/'] is two slash-free segments around it. *)
Lemma slashes_one_inv s :
  slashes s = 1 → ∃ r m, s = r +:+ "/" +:+ m ∧ slashes r = 0 ∧ slashes m = 0.
Proof.
  induction s as [|c s IH]; intros H; [done|]. cbn [slashes] in H.
  destruct (Ascii.eqb c "/") eqn:Hc.
  - apply Ascii.eqb_eq in Hc as ->. exists "", s. split_and!; [done..|lia].
  - destruct IH as (r & m & -> & Hr & Hm); [lia|].
    exists (String c r), m. split_and!; [done| |done].
    cbn [slashes]. rewrite Hc. lia.
Qed.

Lemma Split_slash_length s : length (strings.Split s "/") = S (slashes s).
Proof. apply genSplit_slash_length. Qed.

Lemma Split_two r m :
  slashes r = 0 → slashes m = 0 → strings.Split (r +:+ "/" +:+ m) "/" = [r; m].
Proof. intros Hr Hm. unfold strings.Split. by rewrite genSplit_two. Qed.

(** ** The identifier codec *)

Example encode_scenario :
  encodeProviderID "eu-1" "abc-123" = "vsphere://eu-1/abc-123".
Proof. reflexivity. Qed.

Example decode_scenario :
  decodeProviderID "vsphere://eu-1/abc-123" = Returns ("eu-1", "abc-123").
Proof. reflexivity. Qed.

Example decode_garbage : decodeProviderID "garbage" = Returns ("", "").
Proof. reflexivity. Qed.

Example split_examples :
  strings.Split "a/b/c" "/" = ["a"; "b"; "c"] ∧
  strings.Split "" "/" = [""] ∧
  strings.Split "a--b-c" "--" = ["a"; "b-c"] ∧
  strings.Split "/" "/" = [""; ""].
Proof. repeat split; reflexivity. Qed.

(** Decoding after the scheme prefix is decided by the number of ['/'] bytes
    of the remainder. *)
Lemma decodeProviderID_prefixed rest :
  decodeProviderID (providerPrefix +:+ rest) =
  match strings.Split rest "/" with
  | [region; machineID] => Returns (region, machineID)
  | _ => Returns ("", "")
  end.
Proof.
  unfold decodeProviderID.
  rewrite HasPrefix_app, slice_from_app. cbn [negb obind].
  destruct (strings.Split rest "/") as [|a [|b [|c l]]]; done.
Qed.

Lemma decodeProviderID_no_prefix providerID :
  strings.HasPrefix providerID providerPrefix = false →
  decodeProviderID providerID = Returns ("", "").
Proof. intros H. unfold decodeProviderID. by rewrite H. Qed.

Lemma decodeProviderID_two_segments providerID region machineID :
  two_segments providerID region machineID →
  decodeProviderID providerID = Returns (region, machineID).
Proof.
  intros (-> & Hr & Hm). by rewrite decodeProviderID_prefixed, Split_two.
Qed.

Lemma decodeProviderID_other providerID :
  (¬ ∃ region machineID, two_segments providerID region machineID) →
  decodeProviderID providerID = Returns ("", "").
Proof.
  intros Hno.
  destruct (strings.HasPrefix providerID providerPrefix) eqn:Hp;
    [|by apply decodeProviderID_no_prefix].
  apply HasPrefix_inv in Hp as [rest ->].
  rewrite decodeProviderID_prefixed.
  pose proof (Split_slash_length rest) as Hlen.
  destruct (strings.Split rest "/") as [|a [|b [|c l]]]; try done.
  simpl in Hlen. destruct (slashes_one_inv rest) as (r & m & -> & Hr & Hm); [lia|].
  destruct Hno. by exists r, m.
Qed.

(** C4.  Encoding an empty native machine id yields the empty provider
    identifier, whatever the region. *)
Theorem encodeProviderID_empty_id region : encodeProviderID region "" = "".
Proof. unfold encodeProviderID. by rewrite decide_True. Qed.

(** Conversely, an identifier is minted for every non-empty native id. *)
Lemma encodeProviderID_nonempty region machineID :
  machineID ≠ "" → encodeProviderID region machineID ≠ "".
Proof. intros Hne. unfold encodeProviderID. by rewrite decide_False. Qed.

(** C1, as stated, fails: a region holding a ['/'] makes the encoded
    identifier split into three segments, which decodes to the empty pair. *)
Lemma roundtrip_counterexample :
  "a/b" ≠ "" ∧ "c" ≠ "" ∧
  decodeProviderID (encodeProviderID "a/b" "c") = Returns ("", "") ∧
  decodeProviderID (encodeProviderID "a/b" "c") ≠ Returns ("a/b", "c").
Proof. split_and!; [done..|reflexivity|discriminate]. Qed.

(** C1, amended.  For a region and a non-empty native machine id that hold
    no ['/'], decoding the encoded identifier returns the original pair. *)
Theorem decode_encode_roundtrip region machineID :
  machineID ≠ "" → slashes region = 0 → slashes machineID = 0 →
  decodeProviderID (encodeProviderID region machineID) = Returns (region, machineID).
Proof.
  intros Hne Hr Hm. unfold encodeProviderID.
  destruct (decide (machineID = "")) as [->|_]; [done|].
  by apply decodeProviderID_two_segments.
Qed.

Lemma decode_encode_roundtrip_witness :
  "abc-123" ≠ "" ∧ slashes "eu-1" = 0 ∧ slashes "abc-123" = 0 ∧
  decodeProviderID (encodeProviderID "eu-1" "abc-123") = Returns ("eu-1", "abc-123").
Proof.
  split_and!; [done|reflexivity|reflexivity|].
  apply (decode_encode_roundtrip "eu-1" "abc-123"); [done|reflexivity|reflexivity].
Defined.

(** C2, as stated, fails: the remainder ["a/"] does not split into two
    non-empty segments, yet the identifier decodes to [("a", "")]. *)
Lemma decode_empty_segment_counterexample :
  (¬ ∃ region machineID,
     two_segments "vsphere://a/" region machineID ∧ region ≠ "" ∧ machineID ≠ "") ∧
  decodeProviderID "vsphere://a/" = Returns ("a", "") ∧
  decodeProviderID "vsphere://a/" ≠ Returns ("", "").
Proof.
  split_and!; [|reflexivity|discriminate].
  intros (r & m & (Heq & _ & _) & _ & Hm).
  change "vsphere://a/" with (providerPrefix +:+ "a/") in Heq.
  apply (inj (String.app providerPrefix)) in Heq.
  destruct r as [|c [|d r]]; rewrite ?append_cons, ?append_nil_l in Heq.
  - discriminate Heq.
  - change ("/" +:+ m) with (String "/" m) in Heq. by simplify_eq.
  - injection Heq as _ _ Heq. destruct r; discriminate Heq.
Qed.

(** C2, amended.  [decodeProviderID] returns on every string, never panicking;
    it returns the pair of empty strings on every string that is not the
    scheme prefix followed by exactly two ['/']-separated segments; and on the
    scheme prefix followed by two such segments it returns the two segments as
    they are, empty or not. *)
Theorem decodeProviderID_total providerID :
  (∃ region machineID, decodeProviderID providerID = Returns (region, machineID)) ∧
  ((¬ ∃ region machineID, two_segments providerID region machineID) →
   decodeProviderID providerID = Returns ("", "")) ∧
  (∀ region machineID, two_segments providerID region machineID →
   decodeProviderID providerID = Returns (region, machineID)).
Proof.
  split_and!; [|apply decodeProviderID_other|apply decodeProviderID_two_segments].
  destruct (strings.HasPrefix providerID providerPrefix) eqn:Hp.
  - apply HasPrefix_inv in Hp as [rest ->]. rewrite decodeProviderID_prefixed.
    destruct (strings.Split rest "/") as [|a [|b [|c l]]]; eauto.
  - rewrite decodeProviderID_no_prefix by done. eauto.
Qed.

Lemma decodeProviderID_total_witness :
  (¬ ∃ region machineID, two_segments "vsphere://a/b/c" region machineID) ∧
  decodeProviderID "vsphere://a/b/c" = Returns ("", "").
Proof.
  assert (¬ ∃ region machineID, two_segments "vsphere://a/b/c" region machineID) as H.
  { intros (r & m & Heq & Hr & Hm).
    change "vsphere://a/b/c" with (providerPrefix +:+ "a/b/c") in Heq.
    apply (inj (String.app providerPrefix)) in Heq.
    apply (f_equal slashes) in Heq. rewrite !slashes_app, Hr, Hm in Heq.
    vm_compute in Heq. discriminate Heq. }
  split; [exact H|].
  exact (proj1 (proj2 (decodeProviderID_total "vsphere://a/b/c")) H).
Defined.

(** ** Provider-spec validation *)

(** Closes a goal [e ∉ l], or [e ∈ l → _], for an error [e] that differs from
    every error appended to [l]. *)
Ltac not_listed :=
  rewrite ?app_nil_l, ?elem_of_app, ?list_elem_of_singleton, ?elem_of_nil;
  let Hin := fresh "Hin" in
  intros Hin; repeat destruct Hin as [Hin|Hin]; done.

Lemma placement_error_not_in_secrets secrets :
  Errorf "either computeCluster or resourcePool or hostSystem field is required"
    ∉ validation.validateSecrets secrets.
Proof.
  unfold validation.validateSecrets.
  repeat case_decide; not_listed.
Qed.

Lemma placement_error_not_in_tags tags keys :
  Errorf "either computeCluster or resourcePool or hostSystem field is required"
    ∉ validation.validateSpecTags tags keys.
Proof.
  unfold validation.validateSpecTags.
  destruct (fold_left validation.tagsStep keys ("", "")) as [c r].
  repeat case_decide; not_listed.
Qed.

(** C8.  The validation reports the compute-placement error exactly for the
    specs in which [ComputeCluster], [ResourcePool] and [HostSystem] are all
    empty. *)
Theorem placement_selector_required spec secrets keys :
  Errorf "either computeCluster or resourcePool or hostSystem field is required"
    ∈ validation.ValidateVsphereProviderSpec spec secrets keys
  ↔ ComputeCluster spec = "" ∧ ResourcePool spec = "" ∧ HostSystem spec = "".
Proof.
  unfold validation.ValidateVsphereProviderSpec.
  pose proof (placement_error_not_in_secrets secrets) as Hs.
  pose proof (placement_error_not_in_tags (Tags spec) keys) as Ht.
  rewrite !elem_of_app.
  split.
  - intros [[H|H]|H]; [|done..].
    destruct (decide ("" = ComputeCluster spec ∧ "" = ResourcePool spec ∧ "" = HostSystem spec))
      as [(?&?&?)|Hno]; [done|].
    exfalso. revert H.
    repeat case_decide; not_listed.
  - intros (Hc & Hr & Hh). left. left.
    rewrite Hc, Hr, Hh.
    repeat case_decide; rewrite ?elem_of_app, ?list_elem_of_singleton; tauto.
Qed.

Lemma placement_selector_required_witness :
  Errorf "either computeCluster or resourcePool or hostSystem field is required"
    ∈ validation.ValidateVsphereProviderSpec
        {| Region := "eu-1"; Datastore := "ds"; DatastoreCluster := "";
           TemplateVM := "tpl"; ComputeCluster := ""; ResourcePool := "";
           HostSystem := ""; Network := "net"; Tags := ∅ |}
        {| VsphereHost := "host"; VsphereUsername := "user"; VspherePassword := "pw";
           VsphereInsecureSSL := false; UserData := "data" |} [].
Proof. apply placement_selector_required. split_and!; reflexivity. Defined.

(** ** Ranging over a tag map *)

Lemma range_order_elem m keys k :
  range_order m keys → k ∈ keys ↔ is_Some (m !! k).
Proof.
  unfold range_order. intros ->. rewrite list_elem_of_fmap. split.
  - intros ([k' v] & -> & Hin). apply elem_of_map_to_list in Hin. by exists v.
  - intros [v Hv]. exists (k, v). split; [done|]. by apply elem_of_map_to_list.
Qed.

Lemma range_order_NoDup m keys : range_order m keys → NoDup keys.
Proof. unfold range_order. intros ->. apply NoDup_fst_map_to_list. Qed.

Lemma range_order_perm m keys1 keys2 :
  range_order m keys1 → range_order m keys2 → keys1 ≡ₚ keys2.
Proof. unfold range_order. by intros -> ->. Qed.

(** Both loops over the tag keys keep the last key of each kind: the shape
    they share is proved once. *)
Section key_selection.

Variables isC isR : string → bool.
Variable step : string * string → string → string * string.
Hypothesis step_eq : ∀ c r k,
  step (c, r) k = if isC k then (k, r) else if isR k then (c, k) else (c, r).

Lemma fold_select keys c0 r0 :
  fold_left step keys (c0, r0) =
  (default c0 (last (filter (λ k, isC k = true) keys)),
   default r0 (last (filter (λ k, isC k = false ∧ isR k = true) keys))).
Proof.
  revert c0 r0. induction keys as [|k keys IH]; intros c0 r0; [done|].
  cbn [fold_left]. rewrite step_eq, !filter_cons.
  destruct (isC k) eqn:HC; [|destruct (isR k) eqn:HR]; rewrite IH.
  - rewrite decide_True by done. rewrite decide_False by (intros [? _]; congruence).
    rewrite last_cons. by destruct (last (filter _ keys)).
  - rewrite decide_False by congruence. rewrite decide_True by done.
    rewrite last_cons.
    by destruct (last (filter (λ k, isC k = false ∧ isR k = true) keys)).
  - rewrite decide_False by congruence.
    by rewrite decide_False by (intros [_ ?]; congruence).
Qed.

End key_selection.

Section last_of_filter.

Context (P : string → Prop) `{!∀ k, Decision (P k)}.

Lemma last_filter_none keys :
  (∀ k, k ∈ keys → ¬ P k) → default "" (last (filter P keys)) = "".
Proof.
  intros Hno. destruct (filter P keys) as [|k l] eqn:Hf; [done|].
  assert (k ∈ filter P keys) as Hk by (rewrite Hf; left).
  apply list_elem_of_filter in Hk as [HP Hk]. by destruct (Hno k).
Qed.

Lemma last_filter_some keys k :
  ¬ P "" → k ∈ keys → P k → default "" (last (filter P keys)) ≠ "".
Proof.
  intros Hempty Hk HP.
  assert (k ∈ filter P keys) as Hin by by apply list_elem_of_filter.
  destruct (last (filter P keys)) as [y|] eqn:Hlast.
  - apply last_Some_elem_of, list_elem_of_filter in Hlast as [Hy _].
    simpl. by intros ->.
  - apply last_None in Hlast. rewrite Hlast in Hin. by apply elem_of_nil in Hin.
Qed.

Lemma last_filter_selected keys k :
  last (filter P keys) = Some k → P k ∧ k ∈ keys.
Proof. intros Hl. by apply last_Some_elem_of, list_elem_of_filter in Hl. Qed.

Lemma filter_unique_order keys1 keys2 :
  keys1 ≡ₚ keys2 → NoDup keys1 →
  (∀ x y, x ∈ keys1 → y ∈ keys1 → P x → P y → x = y) →
  filter P keys1 = filter P keys2.
Proof.
  intros Hperm Hnd Huniq.
  assert (filter P keys1 ≡ₚ filter P keys2) as Hf by by rewrite Hperm.
  pose proof (NoDup_filter P _ Hnd) as Hndf.
  destruct (filter P keys1) as [|x [|y l]] eqn:H1.
  - by apply Permutation_nil_l in Hf.
  - by apply Permutation_singleton_l in Hf.
  - assert (x ∈ filter P keys1 ∧ y ∈ filter P keys1) as [Hx Hy].
    { rewrite H1. split; [left|right; left]. }
    apply list_elem_of_filter in Hx as [HPx Hx], Hy as [HPy Hy].
    apply NoDup_cons in Hndf as [Hxy _].
    destruct Hxy. rewrite (Huniq x y) by done. left.
Qed.

End last_of_filter.

(** ** The selection of the cluster and role tag keys *)

Lemma tagKeysStep_eq c r k :
  internal.tagKeysStep (c, r) k =
  if strings.HasPrefix k clusterPrefix then (k, r)
  else if strings.HasPrefix k rolePrefix then (c, k) else (c, r).
Proof. reflexivity. Qed.

Lemma tagsStep_eq c r k :
  validation.tagsStep (c, r) k =
  if strings.Contains k clusterPrefix then (k, r)
  else if strings.Contains k rolePrefix then (c, k) else (c, r).
Proof. reflexivity. Qed.

(** Without a key of one of the two kinds the loop of [ListMachines] leaves
    [clusterName] or [nodeRole] empty. *)
Lemma tagKeys_lacking tags keys :
  range_order tags keys →
  lacks_key tags clusterPrefix ∨ lacks_key tags rolePrefix →
  ∃ c r, fold_left internal.tagKeysStep keys ("", "") = (c, r) ∧ (c = "" ∨ r = "").
Proof.
  intros Hro Hlack. rewrite (fold_select _ _ _ tagKeysStep_eq).
  eexists _, _. split; [done|].
  destruct Hlack as [Hl|Hl]; [left|right]; apply last_filter_none; intros k Hk.
  - rewrite (Hl k); [done|]. by apply (range_order_elem tags keys).
  - intros [_ HR]. rewrite (Hl k) in HR; [done|]. by apply (range_order_elem tags keys).
Qed.

(** With at most one key of each kind the selection does not depend on the
    order of the iteration. *)
Lemma tagKeys_order_irrelevant tags keys1 keys2 :
  range_order tags keys1 → range_order tags keys2 →
  at_most_one_key tags clusterPrefix → at_most_one_key tags rolePrefix →
  fold_left internal.tagKeysStep keys1 ("", "") =
  fold_left internal.tagKeysStep keys2 ("", "").
Proof.
  intros H1 H2 Hc Hr. rewrite !(fold_select _ _ _ tagKeysStep_eq).
  pose proof (range_order_perm _ _ _ H1 H2) as Hperm.
  pose proof (range_order_NoDup _ _ H1) as Hnd.
  f_equal; f_equal; f_equal; apply filter_unique_order; try done.
  - intros x y Hx Hy HPx HPy.
    apply (range_order_elem tags keys1) in Hx, Hy; [|done..]. by apply Hc.
  - intros x y Hx Hy [_ HPx] [_ HPy].
    apply (range_order_elem tags keys1) in Hx, Hy; [|done..]. by apply Hr.
Qed.

(** The two selected keys, when both are set, are different keys. *)
Lemma tagKeys_distinct keys c r :
  fold_left internal.tagKeysStep keys ("", "") = (c, r) → c ≠ "" → r ≠ "" → c ≠ r.
Proof.
  rewrite (fold_select _ _ _ tagKeysStep_eq). intros [= Hc Hr] Hcn Hrn ->.
  destruct (last (filter _ keys)) as [k|] eqn:Hk in Hc; [|done].
  destruct (last (filter (λ k, _ ∧ _) keys)) as [k'|] eqn:Hk' in Hr; [|done].
  simpl in *. subst.
  apply last_filter_selected in Hk as [Hk _], Hk' as [[Hk' _] _]. congruence.
Qed.

(** No key starts with both prefixes, so the order of the two tests in the
    loop of [ListMachines] hides no role key. *)
Lemma cluster_key_not_role k :
  strings.HasPrefix k clusterPrefix = true → strings.HasPrefix k rolePrefix = false.
Proof. intros [rest ->]%HasPrefix_inv. reflexivity. Qed.

(** ** Iteration orders that make the selection differ *)

Lemma role_key_not_cluster k :
  strings.HasPrefix k rolePrefix = true → strings.HasPrefix k clusterPrefix = false.
Proof.
  intros HR. destruct (strings.HasPrefix k clusterPrefix) eqn:HC; [|done].
  apply cluster_key_not_role in HC. congruence.
Qed.

Lemma range_order_canonical tags : range_order tags ((map_to_list tags).*1).
Proof. by unfold range_order. Qed.

(** Visiting the other keys first and two keys of the map last is an
    iteration order of the map, whichever of the two comes last. *)
Lemma others_range_order tags k1 k2 :
  k1 ≠ k2 → is_Some (tags !! k1) → is_Some (tags !! k2) →
  range_order tags (others tags k1 k2 ++ [k1; k2]) ∧
  range_order tags (others tags k1 k2 ++ [k2; k1]).
Proof.
  intros Hne H1 H2.
  pose proof (range_order_canonical tags) as Hro.
  pose proof (range_order_NoDup _ _ Hro) as Hnd.
  apply (range_order_elem tags _ _ Hro) in H1, H2.
  assert (others tags k1 k2 ++ [k1; k2] ≡ₚ (map_to_list tags).*1) as Hperm.
  { apply NoDup_Permutation; [|done|].
    - apply NoDup_app. split_and!.
      + by apply NoDup_filter.
      + intros x [[Hx1 Hx2] _]%list_elem_of_filter [->|[->|[]%elem_of_nil]%elem_of_cons]%elem_of_cons;
          done.
      + apply NoDup_cons. split; [by intros ->%list_elem_of_singleton|].
        apply NoDup_singleton.
    - intros x. unfold others.
      rewrite elem_of_app, list_elem_of_filter, !elem_of_cons, elem_of_nil.
      split; [intros [[_ ?]|[->|[->|[]]]]; done|].
      intros Hx. destruct (decide (x = k1)) as [->|?]; [by auto|].
      destruct (decide (x = k2)) as [->|?]; auto. }
  split; [exact Hperm|].
  unfold range_order. rewrite <- Hperm. apply Permutation_app_head, perm_swap.
Qed.

Lemma fold_left_two_last {A B} (f : A → B → A) l a b x :
  fold_left f (l ++ [a; b]) x = f (f (fold_left f l x) a) b.
Proof. by rewrite fold_left_app. Qed.

(** With two cluster keys visited last, the later one is selected. *)
Lemma select_last_cluster l k1 k2 :
  strings.HasPrefix k1 clusterPrefix = true → strings.HasPrefix k2 clusterPrefix = true →
  fold_left internal.tagKeysStep (l ++ [k1; k2]) ("", "") =
  (k2, (fold_left internal.tagKeysStep l ("", "")).2).
Proof.
  intros H1 H2. rewrite fold_left_two_last.
  destruct (fold_left internal.tagKeysStep l ("", "")) as [c0 r0].
  by rewrite tagKeysStep_eq, H1, tagKeysStep_eq, H2.
Qed.

(** With two role keys visited last, the later one is selected. *)
Lemma select_last_role l k1 k2 :
  strings.HasPrefix k1 rolePrefix = true → strings.HasPrefix k2 rolePrefix = true →
  fold_left internal.tagKeysStep (l ++ [k1; k2]) ("", "") =
  ((fold_left internal.tagKeysStep l ("", "")).1, k2).
Proof.
  intros H1 H2. rewrite fold_left_two_last.
  destruct (fold_left internal.tagKeysStep l ("", "")) as [c0 r0].
  by rewrite tagKeysStep_eq, (role_key_not_cluster _ H1), H1,
    tagKeysStep_eq, (role_key_not_cluster _ H2), H2.
Qed.

(** A key of the other kind among the keys visited first is selected too. *)
Lemma others_select_role tags k1 k2 :
  strings.HasPrefix k1 clusterPrefix = true → strings.HasPrefix k2 clusterPrefix = true →
  has_key tags rolePrefix →
  ∃ r, (fold_left internal.tagKeysStep (others tags k1 k2) ("", "")).2 = r ∧
       strings.HasPrefix r rolePrefix = true.
Proof.
  intros H1 H2 (kr & Hkr & HR). eexists. split; [done|].
  rewrite (fold_select _ _ _ tagKeysStep_eq). cbn [snd].
  assert (kr ∈ others tags k1 k2) as Hin.
  { apply list_elem_of_filter. split.
    - split; intros ->; apply cluster_key_not_role in H1, H2; congruence.
    - by apply (range_order_elem tags _ _ (range_order_canonical tags)). }
  destruct (last (filter _ (others tags k1 k2))) as [r|] eqn:Hlast.
  - by apply last_filter_selected in Hlast as [[_ ?] _].
  - apply last_None in Hlast.
    assert (kr ∈ filter (λ k, strings.HasPrefix k clusterPrefix = false ∧
                              strings.HasPrefix k rolePrefix = true)
                   (others tags k1 k2)) as Hf.
    { apply list_elem_of_filter. split; [|done]. split; [|done].
      by apply role_key_not_cluster. }
    rewrite Hlast in Hf. by apply elem_of_nil in Hf.
Qed.

Lemma others_select_cluster tags k1 k2 :
  strings.HasPrefix k1 rolePrefix = true → strings.HasPrefix k2 rolePrefix = true →
  has_key tags clusterPrefix →
  ∃ c, (fold_left internal.tagKeysStep (others tags k1 k2) ("", "")).1 = c ∧
       strings.HasPrefix c clusterPrefix = true.
Proof.
  intros H1 H2 (kc & Hkc & HC). eexists. split; [done|].
  rewrite (fold_select _ _ _ tagKeysStep_eq). cbn [fst].
  assert (kc ∈ others tags k1 k2) as Hin.
  { apply list_elem_of_filter. split.
    - split; intros ->; apply cluster_key_not_role in HC; congruence.
    - by apply (range_order_elem tags _ _ (range_order_canonical tags)). }
  destruct (last (filter _ (others tags k1 k2))) as [c|] eqn:Hlast.
  - by apply last_filter_selected in Hlast as [? _].
  - apply last_None in Hlast.
    assert (kc ∈ filter (λ k, strings.HasPrefix k clusterPrefix = true)
                   (others tags k1 k2)) as Hf by by apply list_elem_of_filter.
    rewrite Hlast in Hf. by apply elem_of_nil in Hf.
Qed.

(** [ListMachines] on the one-machine platform [probe c r]: the machine is
    listed exactly when the selected keys are [c] and [r]. *)
Lemma ListMachines_probe spec keys c r c' r' :
  fold_left internal.tagKeysStep keys ("", "") = (c', r') →
  c' ≠ "" → r' ≠ "" → c ≠ r' → r ≠ c' →
  platform.ListMachines spec scenario.secrets keys (scenario.probe c r) =
  (Returns
     (Some (if decide (c = c' ∧ r = r')
            then {[ encodeProviderID (Region spec) "uuid-1" := "vm-1" ]} else ∅),
      None),
   scenario.probe c r).
Proof.
  intros Hsel Hc' Hr' Hcr Hrc.
  unfold platform.ListMachines, internal.ListMachines, internal.defer.
  change (internal.createVsphereClient platform.url_Parse platform.url_UserPassword
            platform.NewClient scenario.secrets (scenario.probe c r))
    with (@inl nat error 0, platform.with_sessions (scenario.probe c r) 1).
  cbv beta iota. rewrite Hsel. rewrite decide_False by (by intros [?|?]).
  unfold platform.visitVirtualMachines.
  cbn [platform.machines platform.with_sessions scenario.probe platform.scan
       platform.entity platform.fieldDefs obind].
  unfold internal.visitor.
  cbn [CustomValue ofold internal.customValueStep obind Name platform.UUID platform.uuid].
  change (ByKey [ {| FieldKey := 1; FieldName := c |};
                  {| FieldKey := 2; FieldName := r |} ] 1)
    with (Some {| FieldKey := 1; FieldName := c |}).
  cbn [FieldName].
  destruct (decide (c = c')) as [->|Hc];
    [|rewrite (decide_False (P := c = r')) by done];
    cbn [obind internal.customValueStep];
    change (ByKey [ {| FieldKey := 1; FieldName := c' |};
                    {| FieldKey := 2; FieldName := r |} ] 2)
      with (Some {| FieldKey := 2; FieldName := r |}) || idtac;
    change (ByKey [ {| FieldKey := 1; FieldName := c |};
                    {| FieldKey := 2; FieldName := r |} ] 2)
      with (Some {| FieldKey := 2; FieldName := r |}) || idtac;
    cbn [FieldName];
    rewrite (decide_False (P := r = c')) by done;
    destruct (decide (r = r')) as [->|Hr]; cbn [obind andb].
  - rewrite decide_True by done. by rewrite insert_empty.
  - by rewrite decide_False by (by intros [_ ?]).
  - by rewrite decide_False by (by intros [? _]).
  - by rewrite decide_False by (by intros [? _]).
Qed.

Lemma listed_not_empty (pid name : string) (w : platform.Inventory) :
  (Returns (Some ({[ pid := name ]} : gmap string string), @None error), w) ≠
  (Returns (Some ∅, None), w).
Proof.
  intros Heq.
  assert (({[ pid := name ]} : gmap string string) = ∅) as Hm by congruence.
  apply (f_equal (λ m : gmap string string, m !! pid)) in Hm.
  by rewrite lookup_singleton_eq, lookup_empty in Hm.
Qed.

(** Two keys of one prefix and a key of the other prefix: on some platform
    state two iteration orders of the tag map make [ListMachines] return
    different mappings. *)
Lemma ListMachines_orders_differ spec k1 k2 :
  k1 ≠ k2 → is_Some (Tags spec !! k1) → is_Some (Tags spec !! k2) →
  (strings.HasPrefix k1 clusterPrefix = true ∧ strings.HasPrefix k2 clusterPrefix = true ∧
   has_key (Tags spec) rolePrefix) ∨
  (strings.HasPrefix k1 rolePrefix = true ∧ strings.HasPrefix k2 rolePrefix = true ∧
   has_key (Tags spec) clusterPrefix) →
  ∃ keys1 keys2 inv,
    range_order (Tags spec) keys1 ∧ range_order (Tags spec) keys2 ∧
    platform.ListMachines spec scenario.secrets keys1 inv ≠
    platform.ListMachines spec scenario.secrets keys2 inv.
Proof.
  intros Hne Hk1 Hk2 Hkinds.
  destruct (others_range_order (Tags spec) k1 k2 Hne Hk1 Hk2) as [Hro12 Hro21].
  exists (others (Tags spec) k1 k2 ++ [k2; k1]), (others (Tags spec) k1 k2 ++ [k1; k2]).
  destruct Hkinds as [(H1 & H2 & Hrole)|(H1 & H2 & Hcluster)].
  - destruct (others_select_role _ _ _ H1 H2 Hrole) as (r & Hr & HrP).
    exists (scenario.probe k1 r). split_and!; [done..|].
    assert (k1 ≠ "" ∧ k2 ≠ "" ∧ r ≠ "") as (? & ? & ?)
      by (split_and!; intros ->; done).
    assert (k1 ≠ r ∧ k2 ≠ r) as [? ?]
      by (split; intros ->; apply cluster_key_not_role in H1, H2; congruence).
    rewrite (ListMachines_probe spec _ k1 r k1 r)
      by (done || by rewrite select_last_cluster, Hr).
    rewrite (ListMachines_probe spec _ k1 r k2 r)
      by (done || by rewrite select_last_cluster, Hr).
    rewrite decide_True, decide_False by (done || by intros [? _]).
    apply listed_not_empty.
  - destruct (others_select_cluster _ _ _ H1 H2 Hcluster) as (c & Hc & HcP).
    exists (scenario.probe c k1). split_and!; [done..|].
    assert (k1 ≠ "" ∧ k2 ≠ "" ∧ c ≠ "") as (? & ? & ?)
      by (split_and!; intros ->; done).
    assert (c ≠ k1 ∧ c ≠ k2) as [? ?]
      by (split; intros ->; apply cluster_key_not_role in HcP; congruence).
    rewrite (ListMachines_probe spec _ c k1 c k1)
      by (done || by rewrite select_last_role, Hc).
    rewrite (ListMachines_probe spec _ c k1 c k2)
      by (done || by rewrite select_last_role, Hc).
    rewrite decide_True, decide_False by (done || by intros [_ ?]).
    apply listed_not_empty.
Qed.

(** Two keys of one prefix: two iteration orders of the tag map select
    different keys, whatever else the map holds. *)
Lemma selection_orders_differ tags k1 k2 :
  k1 ≠ k2 → is_Some (tags !! k1) → is_Some (tags !! k2) →
  (strings.HasPrefix k1 clusterPrefix = true ∧ strings.HasPrefix k2 clusterPrefix = true) ∨
  (strings.HasPrefix k1 rolePrefix = true ∧ strings.HasPrefix k2 rolePrefix = true) →
  ∃ keys1 keys2,
    range_order tags keys1 ∧ range_order tags keys2 ∧
    fold_left internal.tagKeysStep keys1 ("", "") ≠
    fold_left internal.tagKeysStep keys2 ("", "").
Proof.
  intros Hne Hk1 Hk2 Hkinds.
  destruct (others_range_order tags k1 k2 Hne Hk1 Hk2) as [Hro12 Hro21].
  exists (others tags k1 k2 ++ [k2; k1]), (others tags k1 k2 ++ [k1; k2]).
  split_and!; [done..|].
  destruct Hkinds as [[H1 H2]|[H1 H2]].
  - rewrite !select_last_cluster by done. congruence.
  - rewrite !select_last_role by done. congruence.
Qed.

(** ** The plugin operations, for any platform *)

Section SPI_properties.

Context {World Client URL VirtualMachine : Type}.
Variable url_Parse : string → URL + error.
Variable url_UserPassword : URL → string → string → URL.
Variable govmomi_NewClient : URL → bool → World → (Client + error) * World.
Variable Logout : Client → World → World.
Variable UUID : VirtualMachine → World → string.
Variable deleteVM :
  Client → VsphereProviderSpec → string → string → World → (string * option error) * World.
Variable shutDownVM :
  Client → VsphereProviderSpec → string → string → World → (string * option error) * World.
Variable findVM :
  Client → VsphereProviderSpec → string → string → World →
  (option VirtualMachine * option error) * World.
Variable visitVirtualMachines :
  Client → VsphereProviderSpec → @internal.visitorT World VirtualMachine →
  gmap string string → World → outcome (option error * gmap string string) * World.

Local Abbreviation createVsphereClient :=
  (internal.createVsphereClient url_Parse url_UserPassword govmomi_NewClient).
Local Abbreviation DeleteMachine :=
  (internal.DeleteMachine url_Parse url_UserPassword govmomi_NewClient Logout deleteVM).
Local Abbreviation ShutDownMachine :=
  (internal.ShutDownMachine url_Parse url_UserPassword govmomi_NewClient Logout shutDownVM).
Local Abbreviation GetMachineStatus :=
  (internal.GetMachineStatus url_Parse url_UserPassword govmomi_NewClient Logout UUID findVM).
Local Abbreviation ListMachines :=
  (internal.ListMachines url_Parse url_UserPassword govmomi_NewClient Logout UUID
     visitVirtualMachines).

(** With [clusterName] or [nodeRole] left empty, [ListMachines] returns the
    empty mapping right after the session is opened; the platform is touched
    by the login and the logout only. *)
Lemma ListMachines_no_selection spec secrets keys w client w1 c r :
  fold_left internal.tagKeysStep keys ("", "") = (c, r) → c = "" ∨ r = "" →
  createVsphereClient secrets w = (inl client, w1) →
  ListMachines spec secrets keys w = (Returns (Some ∅, None), Logout client w1).
Proof.
  intros Hsel Hempty Hclient. unfold internal.ListMachines, internal.defer.
  rewrite Hclient, Hsel. by rewrite decide_True.
Qed.

(** C6.  For a provider spec whose tag map lacks a key with the prefix
    [kubernetes.io/cluster/] or lacks one with the prefix [kubernetes.io/role/],
    [ListMachines], once its session is open, returns the empty mapping and no
    error, whatever the scan of the machines would do: the resulting platform
    state is that of the login followed by the logout. *)
Theorem ListMachines_without_tags spec secrets keys w client w1 :
  range_order (Tags spec) keys →
  lacks_key (Tags spec) clusterPrefix ∨ lacks_key (Tags spec) rolePrefix →
  createVsphereClient secrets w = (inl client, w1) →
  ListMachines spec secrets keys w = (Returns (Some ∅, None), Logout client w1).
Proof.
  intros Hro Hlack Hclient.
  destruct (tagKeys_lacking _ _ Hro Hlack) as (c & r & Hsel & Hempty).
  by apply (ListMachines_no_selection _ _ _ _ _ _ c r).
Qed.

(** A tag key that holds one of the distinguished strings satisfies the
    validation wherever the string stands in the key. *)
Lemma validateSpecTags_contains tags keys kc kr :
  kc ∈ keys → strings.Contains kc clusterPrefix = true →
  kr ∈ keys → strings.Contains kr clusterPrefix = false →
  strings.Contains kr rolePrefix = true →
  validation.validateSpecTags tags keys = [].
Proof.
  intros Hkc HC Hkr HnC HR. unfold validation.validateSpecTags.
  rewrite (fold_select _ _ _ tagsStep_eq).
  rewrite decide_False; [rewrite decide_False; [done|]|].
  - by apply (last_filter_some _ keys kc).
  - apply (last_filter_some _ keys kr); [by intros [_ ?]|done|done].
Qed.

(** C9.  The tag map with the keys [x-kubernetes.io/cluster/c] and
    [x-kubernetes.io/role/r] passes [validateSpecTags] without an error, in
    whatever order its keys are visited, yet [ListMachines] finds neither
    prefix and returns the empty mapping in every platform state in which
    its session opens. *)
Theorem validated_tags_unseen_by_ListMachines spec secrets keys w client w1 :
  Tags spec = scenario.interior_tags →
  range_order (Tags spec) keys →
  createVsphereClient secrets w = (inl client, w1) →
  validation.validateSpecTags (Tags spec) keys = [] ∧
  ListMachines spec secrets keys w = (Returns (Some ∅, None), Logout client w1).
Proof.
  intros Htags Hro Hclient. split.
  - apply (validateSpecTags_contains _ _ "x-kubernetes.io/cluster/c"
             "x-kubernetes.io/role/r"); try reflexivity.
    + apply (range_order_elem _ _ _ Hro). by rewrite Htags.
    + apply (range_order_elem _ _ _ Hro). by rewrite Htags.
  - assert (lacks_key (Tags spec) clusterPrefix) as Hlack; last first.
    { destruct (tagKeys_lacking _ _ Hro (or_introl Hlack)) as (c & r & Hsel & Hempty).
      by apply (ListMachines_no_selection _ _ _ _ _ _ c r). }
    intros key [v Hv]. rewrite Htags in Hv. unfold scenario.interior_tags in Hv.
    apply lookup_insert_Some in Hv as [[<- _]|[_ Hv]]; [done|].
    by apply lookup_singleton_Some in Hv as [<- _].
Qed.

Lemma encodeProviderID_minted region machineID :
  minted_for region (encodeProviderID region machineID).
Proof.
  unfold minted_for, encodeProviderID.
  destruct (decide (machineID = "")); [by left|right; eauto].
Qed.


(** With at most one key for each prefix, the result of [ListMachines] does
    not depend on the order in which the tag keys are visited. *)
Lemma ListMachines_order_irrelevant spec secrets keys1 keys2 w :
  range_order (Tags spec) keys1 → range_order (Tags spec) keys2 →
  at_most_one_key (Tags spec) clusterPrefix → at_most_one_key (Tags spec) rolePrefix →
  ListMachines spec secrets keys1 w = ListMachines spec secrets keys2 w.
Proof.
  intros H1 H2 Hc Hr. unfold internal.ListMachines.
  by rewrite (tagKeys_order_irrelevant _ _ _ H1 H2 Hc Hr).
Qed.

(** C10.  [ListMachines] is not deterministic in its choice of the cluster and
    role tag keys.  For every tag map with two distinct keys of the prefix
    [kubernetes.io/cluster/], or two distinct keys of the prefix
    [kubernetes.io/role/], two iteration orders of the map select different
    keys; when the map also has a key of the other prefix (without one the
    result is the empty mapping in every order), there is a platform state on
    which the two orders make [ListMachines] return different mappings.  On one
    concrete state, one order of three keys lists a machine and another order
    lists none.  With at most one key for each prefix every order gives the
    same result. *)
Theorem ListMachines_iteration_order :
  (let spec := scenario.spec_with "eu-1" scenario.tags_ab in
   let inv := scenario.inventory [scenario.machine_a] in
   let keys1 := ["kubernetes.io/cluster/b"; "kubernetes.io/cluster/a"; "kubernetes.io/role/r"] in
   let keys2 := ["kubernetes.io/cluster/a"; "kubernetes.io/cluster/b"; "kubernetes.io/role/r"] in
   range_order (Tags spec) keys1 ∧ range_order (Tags spec) keys2 ∧
   platform.ListMachines spec scenario.secrets keys1 inv =
     (Returns (Some {[ "vsphere://eu-1/uuid-1" := "vm-1" ]}, None), inv) ∧
   platform.ListMachines spec scenario.secrets keys2 inv =
     (Returns (Some ∅, None), inv) ∧
   platform.ListMachines spec scenario.secrets keys1 inv ≠
     platform.ListMachines spec scenario.secrets keys2 inv) ∧
  (∀ tags k1 k2,
     k1 ≠ k2 → is_Some (tags !! k1) → is_Some (tags !! k2) →
     (strings.HasPrefix k1 clusterPrefix = true ∧ strings.HasPrefix k2 clusterPrefix = true) ∨
     (strings.HasPrefix k1 rolePrefix = true ∧ strings.HasPrefix k2 rolePrefix = true) →
     ∃ keys1 keys2,
       range_order tags keys1 ∧ range_order tags keys2 ∧
       fold_left internal.tagKeysStep keys1 ("", "") ≠
       fold_left internal.tagKeysStep keys2 ("", "")) ∧
  (∀ spec k1 k2,
     k1 ≠ k2 → is_Some (Tags spec !! k1) → is_Some (Tags spec !! k2) →
     (strings.HasPrefix k1 clusterPrefix = true ∧ strings.HasPrefix k2 clusterPrefix = true ∧
      has_key (Tags spec) rolePrefix) ∨
     (strings.HasPrefix k1 rolePrefix = true ∧ strings.HasPrefix k2 rolePrefix = true ∧
      has_key (Tags spec) clusterPrefix) →
     ∃ keys1 keys2 inv,
       range_order (Tags spec) keys1 ∧ range_order (Tags spec) keys2 ∧
       platform.ListMachines spec scenario.secrets keys1 inv ≠
       platform.ListMachines spec scenario.secrets keys2 inv) ∧
  (∀ spec secrets keys1 keys2 w,
     range_order (Tags spec) keys1 → range_order (Tags spec) keys2 →
     at_most_one_key (Tags spec) clusterPrefix → at_most_one_key (Tags spec) rolePrefix →
     ListMachines spec secrets keys1 w = ListMachines spec secrets keys2 w).
Proof.
  split; [|split_and!].
  - split_and!.
    + apply (bool_decide_unpack _). vm_compute. reflexivity.
    + apply (bool_decide_unpack _). vm_compute. reflexivity.
    + vm_compute. reflexivity.
    + vm_compute. reflexivity.
    + vm_compute. intros Heq. discriminate Heq.
  - apply selection_orders_differ.
  - apply ListMachines_orders_differ.
  - apply ListMachines_order_irrelevant.
Qed.

End SPI_properties.

(** ** The plugin on the platform collaborator *)

(** On the platform a successful login only counts a session, and the logout
    that follows restores the state. *)
Lemma platform_session secrets inv client inv1 :
  platform.createVsphereClient secrets inv = (inl client, inv1) →
  platform.machines inv1 = platform.machines inv ∧
  platform.fieldDefs inv1 = platform.fieldDefs inv ∧
  platform.Logout client inv1 = inv.
Proof.
  unfold platform.createVsphereClient, internal.createVsphereClient, platform.NewClient.
  destruct (platform.url_Parse _); [|by intros [=]].
  destruct (platform.loginFault inv) eqn:Hf; intros [= <- <-].
  split_and!; [done..|]. by destruct inv.
Qed.

(** The visitor's loop raises [matchedCluster] and [matchedRole] exactly for
    the field names it meets. *)
Lemma ofold_customValueStep c r field cvs mc mr mc' mr' :
  c ≠ r →
  ofold (internal.customValueStep c r field) (mc, mr) cvs = Returns (mc', mr') →
  (mc' = true ↔ mc = true ∨ c ∈ fieldNames field {| Name := ""; CustomValue := cvs |}) ∧
  (mr' = true ↔ mr = true ∨ r ∈ fieldNames field {| Name := ""; CustomValue := cvs |}).
Proof.
  intros Hcr. unfold fieldNames. cbn [CustomValue].
  revert mc mr. induction cvs as [|cv cvs IH]; intros mc mr.
  - intros [= <- <-]. cbn [omap list_omap]. rewrite !elem_of_nil. tauto.
  - cbn [ofold]. destruct cv as [k|k v]; [done|].
    cbn [internal.customValueStep omap list_omap].
    destruct (ByKey field k) as [def|]; [|done]. cbn [fmap option_fmap option_map].
    rewrite !elem_of_cons.
    destruct (decide (FieldName def = c)) as [Hc|Hc];
      [|destruct (decide (FieldName def = r)) as [Hr|Hr]];
      cbn [obind]; intros Hf; apply IH in Hf as [Hf1 Hf2];
      rewrite Hf1, Hf2; intuition (subst; congruence).
Qed.

Lemma visitor_spec spec c r (m : platform.Machine) obj field inv st e st' :
  c ≠ r →
  internal.visitor platform.UUID spec c r m obj field inv st = Returns (e, st') →
  e = None ∧
  ((c ∈ fieldNames field obj ∧ r ∈ fieldNames field obj ∧
    st' = <[encodeProviderID (Region spec) (platform.uuid m) := Name obj]> st) ∨
   (¬ (c ∈ fieldNames field obj ∧ r ∈ fieldNames field obj) ∧ st' = st)).
Proof.
  intros Hcr. unfold internal.visitor.
  destruct (ofold _ _ (CustomValue obj)) as [[mc mr]|] eqn:Hfold; [|done].
  apply ofold_customValueStep in Hfold as [Hc Hr]; [|done].
  change (fieldNames field {| Name := ""; CustomValue := CustomValue obj |})
    with (fieldNames field obj) in Hc, Hr.
  cbn [obind]. destruct mc, mr; cbn [andb]; intros [= <- <-]; (split; [done|]).
  - left. intuition congruence.
  - right. split; [|done]. intros [_ ?]. intuition congruence.
  - right. split; [|done]. intros [? _]. intuition congruence.
  - right. split; [|done]. intros [? _]. intuition congruence.
Qed.

(** The scan adds an entry for every machine that carries both fields and
    for no other machine. *)
Lemma scan_spec spec c r inv ms st e st' :
  c ≠ r →
  platform.scan (internal.visitor platform.UUID spec c r) inv ms st = Returns (e, st') →
  e = None ∧
  (∀ providerID name, st' !! providerID = Some name →
     st !! providerID = Some name ∨
     ∃ m, m ∈ ms ∧ tagged_with (platform.fieldDefs inv) c r m ∧
          providerID = encodeProviderID (Region spec) (platform.uuid m) ∧
          name = Name (platform.entity m)) ∧
  (∀ providerID, is_Some (st !! providerID) → is_Some (st' !! providerID)) ∧
  (∀ m, m ∈ ms → tagged_with (platform.fieldDefs inv) c r m →
     is_Some (st' !! encodeProviderID (Region spec) (platform.uuid m))).
Proof.
  intros Hcr. revert st. induction ms as [|m ms IH]; intros st.
  - intros [= <- <-]. split_and!; [done|auto|auto|].
    by intros m Hm%elem_of_nil.
  - cbn [platform.scan].
    destruct (internal.visitor _ _ _ _ m _ _ inv st) as [[e1 st1]|] eqn:Hv; [|done].
    apply visitor_spec in Hv as [-> Hst1]; [|done]. cbn [obind]. intros Hscan.
    apply IH in Hscan as (-> & Hsound & Hmono & Hcompl).
    split; [done|].
    destruct Hst1 as [(Hc & Hr & ->)|[Hno ->]].
    + split_and!.
      * intros providerID name Hl. apply Hsound in Hl as [Hl|(m' & Hm' & ?)].
        -- apply lookup_insert_Some in Hl as [[<- <-]|[_ Hl]]; [|by left].
           right. exists m. split_and!; [left|done..].
        -- right. exists m'. split; [by right|done].
      * intros providerID Hl. apply Hmono, lookup_insert_is_Some'. by right.
      * intros m' [->|Hm']%elem_of_cons Ht; [|by apply Hcompl].
        apply Hmono, lookup_insert_is_Some'. by left.
    + split_and!; [|done|].
      * intros providerID name Hl. apply Hsound in Hl as [Hl|(m' & Hm' & ?)]; [by left|].
        right. exists m'. split; [by right|done].
      * intros m' [->|Hm']%elem_of_cons Ht; [by destruct Hno|by apply Hcompl].
Qed.

(** C3, as stated, fails.  The spec selects the keys [kubernetes.io/cluster/a]
    and [kubernetes.io/role/r]; machine [b] carries a key matching
    [kubernetes.io/cluster/*] and a key matching [kubernetes.io/role/*], yet
    [ListMachines] does not list it. *)
Lemma tag_match_counterexample :
  let spec := scenario.spec_with "eu-1" scenario.tags_a in
  let keys := ["kubernetes.io/cluster/a"; "kubernetes.io/role/r"] in
  let inv := scenario.inventory [scenario.machine_b] in
  let tagKeys := fieldNames (platform.fieldDefs inv) (platform.entity scenario.machine_b) in
  range_order (Tags spec) keys ∧
  fold_left internal.tagKeysStep keys ("", "") =
    ("kubernetes.io/cluster/a", "kubernetes.io/role/r") ∧
  scenario.machine_b ∈ platform.machines inv ∧
  "kubernetes.io/cluster/b" ∈ tagKeys ∧
  strings.HasPrefix "kubernetes.io/cluster/b" clusterPrefix = true ∧
  "kubernetes.io/role/r" ∈ tagKeys ∧
  strings.HasPrefix "kubernetes.io/role/r" rolePrefix = true ∧
  platform.ListMachines spec scenario.secrets keys inv = (Returns (Some ∅, None), inv).
Proof.
  split_and!.
  - apply (bool_decide_unpack _). vm_compute. reflexivity.
  - reflexivity.
  - left.
  - vm_compute. left.
  - reflexivity.
  - vm_compute. right. left.
  - reflexivity.
  - vm_compute. reflexivity.
Qed.

(** C3, amended.  When the spec selects a cluster tag key and a role tag key
    and [ListMachines] returns a mapping, every entry of the mapping is the
    provider identifier and the name of a machine in scope that carries custom
    fields named exactly by the two selected keys, and every such machine has
    an entry under its provider identifier; a machine lacking one of the two
    fields contributes no entry. *)
Theorem ListMachines_tag_match spec secrets keys inv clusterName nodeRole machineList inv' :
  fold_left internal.tagKeysStep keys ("", "") = (clusterName, nodeRole) →
  clusterName ≠ "" → nodeRole ≠ "" →
  platform.ListMachines spec secrets keys inv = (Returns (Some machineList, None), inv') →
  (∀ providerID name, machineList !! providerID = Some name →
     ∃ m, m ∈ platform.machines inv ∧
          tagged_with (platform.fieldDefs inv) clusterName nodeRole m ∧
          providerID = encodeProviderID (Region spec) (platform.uuid m) ∧
          name = Name (platform.entity m)) ∧
  (∀ m, m ∈ platform.machines inv →
     tagged_with (platform.fieldDefs inv) clusterName nodeRole m →
     is_Some (machineList !! encodeProviderID (Region spec) (platform.uuid m))).
Proof.
  intros Hsel Hc Hr.
  pose proof (tagKeys_distinct _ _ _ Hsel Hc Hr) as Hcr.
  unfold platform.ListMachines, internal.ListMachines, internal.defer.
  fold platform.createVsphereClient.
  destruct (platform.createVsphereClient secrets inv) as [[client|err] inv1] eqn:Hclient;
    [|by intros [=]].
  apply platform_session in Hclient as (Hms & Hfd & _).
  rewrite Hsel. rewrite decide_False by (by intros [?|?]).
  unfold platform.visitVirtualMachines. rewrite Hms.
  destruct (platform.scan _ inv1 _ ∅) as [[e st']|] eqn:Hscan; [|by intros [=]].
  apply scan_spec in Hscan as (-> & Hsound & _ & Hcompl); [|done].
  rewrite Hfd in Hsound, Hcompl. intros [= <- _]. split; [|done].
  intros providerID name Hl. apply Hsound in Hl as [Hl|Hl]; [|done].
  by rewrite lookup_empty in Hl.
Qed.

Lemma ListMachines_tag_match_witness :
  let spec := scenario.spec_with "eu-1" scenario.tags_a in
  let keys := ["kubernetes.io/cluster/a"; "kubernetes.io/role/r"] in
  let inv := scenario.inventory [scenario.machine_b; scenario.machine_a] in
  let machineList : gmap string string := {[ "vsphere://eu-1/uuid-1" := "vm-1" ]} in
  platform.ListMachines spec scenario.secrets keys inv = (Returns (Some machineList, None), inv) ∧
  ∀ providerID name, machineList !! providerID = Some name →
    ∃ m, m ∈ platform.machines inv ∧
         tagged_with (platform.fieldDefs inv) "kubernetes.io/cluster/a" "kubernetes.io/role/r" m ∧
         providerID = encodeProviderID (Region spec) (platform.uuid m) ∧
         name = Name (platform.entity m).
Proof.
  intros spec keys inv machineList.
  assert (platform.ListMachines spec scenario.secrets keys inv =
            (Returns (Some machineList, None), inv)) as Hrun by (vm_compute; reflexivity).
  split; [exact Hrun|].
  apply (ListMachines_tag_match spec scenario.secrets keys inv
           "kubernetes.io/cluster/a" "kubernetes.io/role/r" machineList inv);
    [reflexivity|done|done|exact Hrun].
Defined.

(** The discovery of one machine reads the machines of the scope only. *)
Lemma resolve_machines inv inv1 machineName machineID :
  platform.machines inv1 = platform.machines inv →
  platform.resolve inv1 machineName machineID = platform.resolve inv machineName machineID.
Proof.
  intros Hms. unfold platform.resolve, platform.LookupByNativeId, platform.LookupByName.
  by rewrite Hms.
Qed.

(** Deleting a machine that cannot be resolved succeeds with the empty
    identifier and leaves the platform as it was. *)
Lemma DeleteMachine_absent machineName providerID spec secrets inv client inv1 region machineID :
  platform.createVsphereClient secrets inv = (inl client, inv1) →
  decodeProviderID providerID = Returns (region, machineID) →
  platform.resolve inv machineName machineID = platform.NotFound →
  platform.DeleteMachine machineName providerID spec secrets inv = (Returns ("", None), inv).
Proof.
  intros Hclient Hdec Habsent.
  unfold platform.DeleteMachine, internal.DeleteMachine, internal.defer.
  fold platform.createVsphereClient. rewrite Hclient, Hdec.
  apply platform_session in Hclient as (Hms & _ & Hout).
  unfold platform.deleteVM. rewrite (resolve_machines inv inv1) by done.
  rewrite Habsent. by rewrite Hout.
Qed.

(** C5.  When the session opens and no machine is resolvable by the decoded
    native id or by the name, [DeleteMachine] succeeds with the empty provider
    identifier and no error, and so does a second call on the resulting
    platform state. *)
Theorem DeleteMachine_absent_idempotent
    machineName providerID spec secrets inv client inv1 region machineID :
  platform.createVsphereClient secrets inv = (inl client, inv1) →
  decodeProviderID providerID = Returns (region, machineID) →
  platform.resolve inv machineName machineID = platform.NotFound →
  ∃ inv',
    platform.DeleteMachine machineName providerID spec secrets inv = (Returns ("", None), inv') ∧
    platform.DeleteMachine machineName providerID spec secrets inv' = (Returns ("", None), inv').
Proof.
  intros Hclient Hdec Habsent. exists inv.
  by rewrite (DeleteMachine_absent _ _ _ _ _ _ _ _ _ Hclient Hdec Habsent).
Qed.

Lemma DeleteMachine_absent_idempotent_witness :
  let inv := scenario.inventory [scenario.machine_a] in
  let spec := scenario.spec_with "eu-1" scenario.tags_a in
  platform.createVsphereClient scenario.secrets inv =
    (inl 0, platform.with_sessions inv 1) ∧
  decodeProviderID "vsphere://eu-1/uuid-9" = Returns ("eu-1", "uuid-9") ∧
  platform.resolve inv "vm-9" "uuid-9" = platform.NotFound ∧
  ∃ inv',
    platform.DeleteMachine "vm-9" "vsphere://eu-1/uuid-9" spec scenario.secrets inv =
      (Returns ("", None), inv') ∧
    platform.DeleteMachine "vm-9" "vsphere://eu-1/uuid-9" spec scenario.secrets inv' =
      (Returns ("", None), inv').
Proof.
  intros inv spec. split_and!; [reflexivity..|].
  apply (DeleteMachine_absent_idempotent "vm-9" "vsphere://eu-1/uuid-9" spec
           scenario.secrets inv 0 (platform.with_sessions inv 1) "eu-1" "uuid-9");
    reflexivity.
Defined.

(** A refused login is returned as the error of the operation, whatever the
    tags and the machines. *)
Example ListMachines_login_refused :
  let inv := {| platform.machines := [scenario.machine_a];
                platform.fieldDefs := scenario.fields;
                platform.loginFault := Some (Errorf "incorrect user name or password");
                platform.sessions := 0 |} in
  platform.ListMachines (scenario.spec_with "eu-1" scenario.tags_a) scenario.secrets
    ["kubernetes.io/cluster/a"; "kubernetes.io/role/r"] inv =
  (Returns (None, Some (Errorf "incorrect user name or password")), inv).
Proof. reflexivity. Qed.

(** Deleting by name with an empty identifier removes the machine and returns
    its identifier; a second delete finds the machine absent. *)
Example DeleteMachine_by_name :
  let inv := scenario.inventory [scenario.machine_a; scenario.machine_b] in
  let spec := scenario.spec_with "eu-1" scenario.tags_a in
  platform.DeleteMachine "vm-1" "" spec scenario.secrets inv =
    (Returns ("vsphere://eu-1/uuid-1", None), scenario.inventory [scenario.machine_b]) ∧
  platform.DeleteMachine "vm-1" "" spec scenario.secrets (scenario.inventory [scenario.machine_b]) =
    (Returns ("", None), scenario.inventory [scenario.machine_b]).
Proof. split; reflexivity. Qed.

(** ** The operations at concrete inputs *)

(** Splits a lookup in a literal tag map into one case per key. *)
Ltac tag_keys H :=
  repeat first
    [ apply lookup_singleton_Some in H as [<- _]
    | apply lookup_insert_Some in H as [[<- _]|[_ H]] ].

Lemma ListMachines_without_tags_witness :
  let spec := scenario.spec_with "eu-1" {[ "kubernetes.io/role/r" := "1" ]} in
  let keys := ["kubernetes.io/role/r"] in
  let inv := scenario.inventory [scenario.machine_a] in
  range_order (Tags spec) keys ∧
  (lacks_key (Tags spec) clusterPrefix ∨ lacks_key (Tags spec) rolePrefix) ∧
  platform.createVsphereClient scenario.secrets inv = (inl 0, platform.with_sessions inv 1) ∧
  platform.ListMachines spec scenario.secrets keys inv =
    (Returns (Some ∅, None), platform.Logout 0 (platform.with_sessions inv 1)).
Proof.
  intros spec keys inv.
  assert (range_order (Tags spec) keys) as Hro
    by (apply (bool_decide_unpack _); vm_compute; reflexivity).
  assert (lacks_key (Tags spec) clusterPrefix ∨ lacks_key (Tags spec) rolePrefix) as Hlack.
  { left. intros key [v Hv]. cbn in Hv. tag_keys Hv. reflexivity. }
  split_and!; [exact Hro|exact Hlack|reflexivity|].
  exact (ListMachines_without_tags platform.url_Parse platform.url_UserPassword
           platform.NewClient platform.Logout platform.UUID platform.visitVirtualMachines
           spec scenario.secrets keys inv 0 (platform.with_sessions inv 1)
           Hro Hlack eq_refl).
Defined.

Lemma validated_tags_unseen_by_ListMachines_witness :
  let spec := scenario.spec_with "eu-1" scenario.interior_tags in
  let keys := ["x-kubernetes.io/role/r"; "x-kubernetes.io/cluster/c"] in
  let inv := scenario.inventory [scenario.machine_a] in
  Tags spec = scenario.interior_tags ∧
  range_order (Tags spec) keys ∧
  platform.createVsphereClient scenario.secrets inv = (inl 0, platform.with_sessions inv 1) ∧
  validation.validateSpecTags (Tags spec) keys = [] ∧
  platform.ListMachines spec scenario.secrets keys inv =
    (Returns (Some ∅, None), platform.Logout 0 (platform.with_sessions inv 1)).
Proof.
  intros spec keys inv.
  assert (range_order (Tags spec) keys) as Hro
    by (apply (bool_decide_unpack _); vm_compute; reflexivity).
  split_and!; [reflexivity|exact Hro|reflexivity|..];
    apply (validated_tags_unseen_by_ListMachines platform.url_Parse
             platform.url_UserPassword platform.NewClient platform.Logout platform.UUID
             platform.visitVirtualMachines spec scenario.secrets keys inv 0
             (platform.with_sessions inv 1) eq_refl Hro eq_refl).
Defined.


(** An identifier minted for a region decodes to that region whenever it
    decodes to a machine at all. *)
Lemma minted_region_decoded region providerID region' machineID' :
  minted_for region providerID →
  decodeProviderID providerID = Returns (region', machineID') →
  machineID' ≠ "" → region' = region.
Proof.
  intros [->|(m & Hm & ->)]; [by intros [= _ <-]|].
  rewrite decodeProviderID_prefixed.
  pose proof (Split_slash_length (region +:+ "/" +:+ m)) as Hlen.
  rewrite !slashes_app in Hlen. change (slashes "/") with 1 in Hlen.
  destruct (strings.Split _ "/") as [|a [|b [|c l]]] eqn:Hsplit;
    try (by intros [= _ <-]).
  simpl in Hlen. rewrite Split_two in Hsplit by lia.
  injection Hsplit as <- <-. by intros [= <- _].
Qed.

(** The region of the returned identifier is that of the spec, not the one
    embedded in the incoming identifier. *)
Example GetMachineStatus_region :
  platform.GetMachineStatus "vm-1" "vsphere://us-9/uuid-1"
    (scenario.spec_with "eu-1" scenario.tags_a) scenario.secrets
    (scenario.inventory [scenario.machine_a]) =
  (Returns ("vsphere://eu-1/uuid-1", None), scenario.inventory [scenario.machine_a]).
Proof. reflexivity. Qed.

Lemma ListMachines_iteration_order_witness :
  let spec := scenario.spec_with "eu-1" scenario.tags_a in
  let keys1 := ["kubernetes.io/cluster/a"; "kubernetes.io/role/r"] in
  let keys2 := ["kubernetes.io/role/r"; "kubernetes.io/cluster/a"] in
  let inv := scenario.inventory [scenario.machine_a; scenario.machine_b] in
  (range_order (Tags spec) keys1 ∧ range_order (Tags spec) keys2 ∧
   at_most_one_key (Tags spec) clusterPrefix ∧ at_most_one_key (Tags spec) rolePrefix ∧
   platform.ListMachines spec scenario.secrets keys1 inv =
     platform.ListMachines spec scenario.secrets keys2 inv) ∧
  (let spec2 := scenario.spec_with "eu-1" scenario.tags_ab in
   ∃ keys1 keys2 inv,
     range_order (Tags spec2) keys1 ∧ range_order (Tags spec2) keys2 ∧
     platform.ListMachines spec2 scenario.secrets keys1 inv ≠
     platform.ListMachines spec2 scenario.secrets keys2 inv).
Proof.
  intros spec keys1 keys2 inv. split; last first.
  { apply (proj1 (proj2 (proj2
             (ListMachines_iteration_order platform.url_Parse platform.url_UserPassword
                platform.NewClient platform.Logout platform.UUID
                platform.visitVirtualMachines)))
             (scenario.spec_with "eu-1" scenario.tags_ab)
             "kubernetes.io/cluster/a" "kubernetes.io/cluster/b");
      [done|by eexists|by eexists|].
    left. split_and!; [reflexivity|reflexivity|].
    exists "kubernetes.io/role/r". split; [by eexists|reflexivity]. }
  assert (range_order (Tags spec) keys1) as Hro1
    by (apply (bool_decide_unpack _); vm_compute; reflexivity).
  assert (range_order (Tags spec) keys2) as Hro2
    by (apply (bool_decide_unpack _); vm_compute; reflexivity).
  assert (at_most_one_key (Tags spec) clusterPrefix) as Hc.
  { intros k1 k2 [v1 H1] [v2 H2]. cbn in H1, H2. unfold scenario.tags_a in H1, H2.
    tag_keys H1; tag_keys H2; intros; done. }
  assert (at_most_one_key (Tags spec) rolePrefix) as Hr.
  { intros k1 k2 [v1 H1] [v2 H2]. cbn in H1, H2. unfold scenario.tags_a in H1, H2.
    tag_keys H1; tag_keys H2; intros; done. }
  split_and!; [exact Hro1|exact Hro2|exact Hc|exact Hr|].
  exact (proj2 (proj2 (proj2
           (ListMachines_iteration_order platform.url_Parse platform.url_UserPassword
              platform.NewClient platform.Logout platform.UUID
              platform.visitVirtualMachines)))
           spec scenario.secrets keys1 keys2 inv Hro1 Hro2 Hc Hr).
Defined.

(** * Further properties of the code *)

(** ** The identifier codec *)

(** Whatever [decodeProviderID] returns, other than the empty pair, is the two
    segments of the identifier: the identifier is the scheme prefix, the
    region, a ['/'] and the machine id, and neither part holds a ['/']. *)
Theorem decodeProviderID_sound providerID region machineID :
  decodeProviderID providerID = Returns (region, machineID) →
  (region = "" ∧ machineID = "") ∨ two_segments providerID region machineID.
Proof.
  destruct (strings.HasPrefix providerID providerPrefix) eqn:Hp.
  - apply HasPrefix_inv in Hp as [rest ->]. rewrite decodeProviderID_prefixed.
    pose proof (Split_slash_length rest) as Hlen.
    destruct (strings.Split rest "/") as [|a [|b [|c l]]] eqn:Hsplit;
      try (intros [= <- <-]; by left).
    simpl in Hlen. destruct (slashes_one_inv rest) as (r & m & -> & Hr & Hm); [lia|].
    rewrite Split_two in Hsplit by done. injection Hsplit as <- <-.
    intros [= <- <-]. by right.
  - rewrite decodeProviderID_no_prefix by done. intros [= <- <-]. by left.
Qed.

Lemma decodeProviderID_sound_witness :
  decodeProviderID "vsphere://eu-1/abc-123" = Returns ("eu-1", "abc-123") ∧
  (("eu-1" = "" ∧ "abc-123" = "") ∨ two_segments "vsphere://eu-1/abc-123" "eu-1" "abc-123").
Proof.
  split; [reflexivity|].
  apply (decodeProviderID_sound "vsphere://eu-1/abc-123" "eu-1" "abc-123"). reflexivity.
Defined.

(** Encoding what was decoded gives the identifier back, as soon as the
    decoded machine id is not empty. *)
Theorem encode_decode_roundtrip providerID region machineID :
  decodeProviderID providerID = Returns (region, machineID) → machineID ≠ "" →
  encodeProviderID region machineID = providerID.
Proof.
  intros Hdec Hne. apply decodeProviderID_sound in Hdec as [[_ ->]|(-> & _ & _)]; [done|].
  unfold encodeProviderID. by rewrite decide_False.
Qed.

Lemma encode_decode_roundtrip_witness :
  decodeProviderID "vsphere://eu-1/abc-123" = Returns ("eu-1", "abc-123") ∧
  "abc-123" ≠ "" ∧
  encodeProviderID "eu-1" "abc-123" = "vsphere://eu-1/abc-123".
Proof.
  split_and!; [reflexivity|done|].
  apply (encode_decode_roundtrip "vsphere://eu-1/abc-123" "eu-1" "abc-123");
    [reflexivity|done].
Defined.

(** The decoded machine id is lost when it is empty: the identifier
    ["vsphere://a/"] decodes to a region that encodes to nothing. *)
Example encode_decode_empty_id :
  decodeProviderID "vsphere://a/" = Returns ("a", "") ∧
  encodeProviderID "a" "" = "".
Proof. split; reflexivity. Qed.

(** For one region, machines with different native ids get different
    identifiers: [encodeProviderID region] is injective. *)
Theorem encodeProviderID_inj region id1 id2 :
  encodeProviderID region id1 = encodeProviderID region id2 → id1 = id2.
Proof.
  unfold encodeProviderID.
  destruct (decide (id1 = "")) as [->|H1], (decide (id2 = "")) as [->|H2];
    [done|discriminate|discriminate|].
  intros Heq. apply (inj (String.app providerPrefix)) in Heq.
  apply (inj (String.app region)) in Heq. by apply (inj (String.app "/")) in Heq.
Qed.

Lemma encodeProviderID_inj_witness :
  encodeProviderID "eu-1" "abc-123" = encodeProviderID "eu-1" "abc-123" ∧
  "abc-123" = "abc-123".
Proof.
  split; [reflexivity|]. apply (encodeProviderID_inj "eu-1" "abc-123" "abc-123").
  reflexivity.
Defined.

Lemma segments_inj r1 r2 m1 m2 :
  slashes r1 = 0 → slashes r2 = 0 →
  r1 +:+ "/" +:+ m1 = r2 +:+ "/" +:+ m2 → r1 = r2 ∧ m1 = m2.
Proof.
  revert r2. induction r1 as [|c r1 IH]; intros [|d r2] H1 H2 Heq.
  - split; [done|]. injection Heq as Heq. exact Heq.
  - injection Heq as <- _. by cbn in H2.
  - injection Heq as -> _. by cbn in H1.
  - injection Heq as -> Heq. cbn [slashes] in H1, H2.
    destruct (IH r2) as [-> ->]; [lia|lia|done|done].
Qed.

(** Over regions without a ['/'], the region and the machine id are both
    determined by a non-empty identifier. *)
Theorem encodeProviderID_inj_pair region1 region2 id1 id2 :
  slashes region1 = 0 → slashes region2 = 0 → id1 ≠ "" →
  encodeProviderID region1 id1 = encodeProviderID region2 id2 →
  region1 = region2 ∧ id1 = id2.
Proof.
  intros H1 H2 Hne. unfold encodeProviderID. rewrite decide_False by done.
  destruct (decide (id2 = "")) as [->|_]; [discriminate|].
  intros Heq. apply (inj (String.app providerPrefix)) in Heq.
  by apply segments_inj.
Qed.

Lemma encodeProviderID_inj_pair_witness :
  slashes "eu-1" = 0 ∧ "abc-123" ≠ "" ∧
  encodeProviderID "eu-1" "abc-123" = encodeProviderID "eu-1" "abc-123" ∧
  ("eu-1" = "eu-1" ∧ "abc-123" = "abc-123").
Proof.
  split; [reflexivity|]. split; [done|]. split; [reflexivity|].
  apply (encodeProviderID_inj_pair "eu-1" "eu-1" "abc-123" "abc-123");
    [reflexivity|reflexivity|done|reflexivity].
Defined.

(** With a ['/'] in the region two different pairs share an identifier. *)
Example encodeProviderID_collision :
  encodeProviderID "a/b" "c" = encodeProviderID "a" "b/c".
Proof. reflexivity. Qed.

(** ** Provider-spec validation *)

(** The loop leaves a name empty exactly when no key of its kind is met. *)
Lemma last_filter_empty_iff (P : string → Prop) `{!∀ k, Decision (P k)} keys :
  ¬ P "" → default "" (last (filter P keys)) = "" ↔ ¬ Exists P keys.
Proof.
  intros Hempty. rewrite Exists_exists. split.
  - intros Hsel (k & Hk & HP). by apply (last_filter_some P keys k Hempty Hk HP).
  - intros Hno. apply last_filter_none. intros k Hk HP. apply Hno. eauto.
Qed.

Lemma Exists_range_order tags keys (P : string → Prop) :
  range_order tags keys → Exists P keys ↔ ∃ k, is_Some (tags !! k) ∧ P k.
Proof.
  intros Hro. rewrite Exists_exists.
  split; intros (k & Hk & HP); exists k; (split; [|done]);
    by apply (range_order_elem tags keys).
Qed.

(** [validateSpecTags] by the kinds of keys that are present. *)
Lemma validateSpecTags_Exists tags keys :
  validation.validateSpecTags tags keys =
  (if decide (Exists (λ k, strings.Contains k clusterPrefix = true) keys)
   then [] else [Errorf "tag required of the form kubernetes.io/cluster/****"]) ++
  (if decide (Exists (λ k, strings.Contains k clusterPrefix = false ∧
                           strings.Contains k rolePrefix = true) keys)
   then [] else [Errorf "tag required of the form kubernetes.io/role/****"]).
Proof.
  unfold validation.validateSpecTags. rewrite (fold_select _ _ _ tagsStep_eq).
  pose proof (last_filter_empty_iff
                (λ k, strings.Contains k clusterPrefix = true) keys
                ltac:(done)) as Hc.
  pose proof (last_filter_empty_iff
                (λ k, strings.Contains k clusterPrefix = false ∧
                      strings.Contains k rolePrefix = true) keys
                ltac:(by intros [_ ?])) as Hr.
  repeat case_decide; try done; tauto.
Qed.

(** The tag errors do not depend on the order in which the keys are visited:
    only the presence of the two kinds of keys counts, not which key of a kind
    comes last. *)
Theorem validateSpecTags_order_irrelevant tags keys1 keys2 :
  range_order tags keys1 → range_order tags keys2 →
  validation.validateSpecTags tags keys1 = validation.validateSpecTags tags keys2.
Proof.
  intros H1 H2. pose proof (range_order_perm _ _ _ H1 H2) as Hperm.
  rewrite !validateSpecTags_Exists.
  assert (∀ P : string → Prop, Exists P keys1 ↔ Exists P keys2) as Hex.
  { intros P. rewrite !Exists_exists. by setoid_rewrite Hperm. }
  pose proof (Hex (λ k, strings.Contains k clusterPrefix = true)).
  pose proof (Hex (λ k, strings.Contains k clusterPrefix = false ∧
                        strings.Contains k rolePrefix = true)).
  repeat case_decide; try done; tauto.
Qed.

Lemma validateSpecTags_order_irrelevant_witness :
  let keys1 := ["kubernetes.io/cluster/a"; "kubernetes.io/cluster/b"; "kubernetes.io/role/r"] in
  let keys2 := ["kubernetes.io/role/r"; "kubernetes.io/cluster/b"; "kubernetes.io/cluster/a"] in
  range_order scenario.tags_ab keys1 ∧ range_order scenario.tags_ab keys2 ∧
  validation.validateSpecTags scenario.tags_ab keys1 =
  validation.validateSpecTags scenario.tags_ab keys2.
Proof.
  intros keys1 keys2.
  assert (range_order scenario.tags_ab keys1) as H1
    by (apply (bool_decide_unpack _); vm_compute; reflexivity).
  assert (range_order scenario.tags_ab keys2) as H2
    by (apply (bool_decide_unpack _); vm_compute; reflexivity).
  split_and!; [exact H1|exact H2|].
  exact (validateSpecTags_order_irrelevant scenario.tags_ab keys1 keys2 H1 H2).
Defined.

(** [validateSpecTags] accepts a tag map exactly when some key holds the
    cluster string and some other key holds the role string without holding
    the cluster string: a key that holds both counts for the cluster only. *)
Theorem validateSpecTags_accepts tags keys :
  range_order tags keys →
  validation.validateSpecTags tags keys = [] ↔
  (∃ k, is_Some (tags !! k) ∧ strings.Contains k clusterPrefix = true) ∧
  (∃ k, is_Some (tags !! k) ∧ strings.Contains k clusterPrefix = false ∧
        strings.Contains k rolePrefix = true).
Proof.
  intros Hro. rewrite validateSpecTags_Exists.
  rewrite <- !(Exists_range_order tags keys _ Hro).
  repeat case_decide; split; try done; tauto.
Qed.

Lemma validateSpecTags_accepts_witness :
  let keys := ["kubernetes.io/cluster/a"; "kubernetes.io/role/r"] in
  range_order scenario.tags_a keys ∧ validation.validateSpecTags scenario.tags_a keys = [].
Proof.
  intros keys.
  assert (range_order scenario.tags_a keys) as Hro
    by (apply (bool_decide_unpack _); vm_compute; reflexivity).
  split; [exact Hro|].
  apply (validateSpecTags_accepts scenario.tags_a keys Hro). split.
  - exists "kubernetes.io/cluster/a". split; [by eexists|reflexivity].
  - exists "kubernetes.io/role/r". split_and!; [by eexists|reflexivity..].
Defined.

(** A key that holds both strings serves as the cluster key only, so a tag
    map with this single key lacks a role tag. *)
Example validateSpecTags_both_in_one_key :
  validation.validateSpecTags {[ "kubernetes.io/role/kubernetes.io/cluster/x" := "1" ]}
    ["kubernetes.io/role/kubernetes.io/cluster/x"] =
  [Errorf "tag required of the form kubernetes.io/role/****"].
Proof. reflexivity. Qed.

(** Decides a statement about the membership of an error in a list built by
    appending literal errors. *)
Ltac listed :=
  rewrite ?app_nil_l, ?elem_of_app, ?list_elem_of_singleton, ?elem_of_nil;
  intuition (first [discriminate | congruence]).

Lemma validateSecrets_reports reference e :
  e ∈ validation.validateSecrets reference ↔
  (e = Errorf "Secret vsphereHost is required field" ∧ VsphereHost reference = "") ∨
  (e = Errorf "Secret vsphereUsername is required field" ∧ VsphereUsername reference = "") ∨
  (e = Errorf "Secret vspherePassword is required field" ∧ VspherePassword reference = "") ∨
  (e = Errorf "Secret userData is required field" ∧ UserData reference = "").
Proof. unfold validation.validateSecrets. repeat case_decide; listed. Qed.

(** The validation reports every violated requirement, and nothing else: one
    error for each of the storage, template, compute-placement and network
    requirements and for each of the four secrets that is violated, followed by
    the tag errors.  The region and the SSL flag are not validated. *)
Theorem validation_reports spec secrets keys e :
  e ∈ validation.ValidateVsphereProviderSpec spec secrets keys ↔
  (e = Errorf "either datastoreCluster or datastore field is required" ∧
   Datastore spec = "" ∧ DatastoreCluster spec = "") ∨
  (e = Errorf "templateVM is a required field" ∧ TemplateVM spec = "") ∨
  (e = Errorf "either computeCluster or resourcePool or hostSystem field is required" ∧
   ComputeCluster spec = "" ∧ ResourcePool spec = "" ∧ HostSystem spec = "") ∨
  (e = Errorf "network is a required field" ∧ Network spec = "") ∨
  (e = Errorf "Secret vsphereHost is required field" ∧ VsphereHost secrets = "") ∨
  (e = Errorf "Secret vsphereUsername is required field" ∧ VsphereUsername secrets = "") ∨
  (e = Errorf "Secret vspherePassword is required field" ∧ VspherePassword secrets = "") ∨
  (e = Errorf "Secret userData is required field" ∧ UserData secrets = "") ∨
  e ∈ validation.validateSpecTags (Tags spec) keys.
Proof.
  unfold validation.ValidateVsphereProviderSpec.
  rewrite (elem_of_app _ (validation.validateSpecTags _ _)).
  rewrite (elem_of_app _ (validation.validateSecrets _)).
  rewrite validateSecrets_reports.
  match goal with |- (e ∈ ?l ∨ _) ∨ _ ↔ _ =>
    assert (e ∈ l ↔
      (e = Errorf "either datastoreCluster or datastore field is required" ∧
       Datastore spec = "" ∧ DatastoreCluster spec = "") ∨
      (e = Errorf "templateVM is a required field" ∧ TemplateVM spec = "") ∨
      (e = Errorf "either computeCluster or resourcePool or hostSystem field is required" ∧
       ComputeCluster spec = "" ∧ ResourcePool spec = "" ∧ HostSystem spec = "") ∨
      (e = Errorf "network is a required field" ∧ Network spec = "")) as ->
  end; [|tauto].
  repeat case_decide;
    repeat match goal with
           | H : ¬ (_ ∧ _) |- _ => apply not_and_l in H; destruct H
           end;
    listed.
Qed.

Lemma validateSecrets_accepts reference :
  validation.validateSecrets reference = [] ↔
  VsphereHost reference ≠ "" ∧ VsphereUsername reference ≠ "" ∧
  VspherePassword reference ≠ "" ∧ UserData reference ≠ "".
Proof.
  unfold validation.validateSecrets.
  repeat case_decide; simpl; intuition (first [discriminate | congruence]).
Qed.

(** The validation returns no error exactly for the provider specs and secrets
    that name a datastore or a datastore cluster, a template, a compute
    cluster, resource pool or host system, a network, the four secrets, and
    whose tag keys hold the cluster string and, in another key, the role
    string. *)
Theorem validation_accepts spec secrets keys :
  range_order (Tags spec) keys →
  validation.ValidateVsphereProviderSpec spec secrets keys = [] ↔
  (Datastore spec ≠ "" ∨ DatastoreCluster spec ≠ "") ∧
  TemplateVM spec ≠ "" ∧
  (ComputeCluster spec ≠ "" ∨ ResourcePool spec ≠ "" ∨ HostSystem spec ≠ "") ∧
  Network spec ≠ "" ∧
  (VsphereHost secrets ≠ "" ∧ VsphereUsername secrets ≠ "" ∧
   VspherePassword secrets ≠ "" ∧ UserData secrets ≠ "") ∧
  (∃ k, is_Some (Tags spec !! k) ∧ strings.Contains k clusterPrefix = true) ∧
  (∃ k, is_Some (Tags spec !! k) ∧ strings.Contains k clusterPrefix = false ∧
        strings.Contains k rolePrefix = true).
Proof.
  intros Hro. unfold validation.ValidateVsphereProviderSpec.
  rewrite !app_nil, validateSecrets_accepts.
  assert (validation.validateSpecTags (Tags spec) keys = [] ↔
    (∃ k, is_Some (Tags spec !! k) ∧ strings.Contains k clusterPrefix = true) ∧
    (∃ k, is_Some (Tags spec !! k) ∧ strings.Contains k clusterPrefix = false ∧
          strings.Contains k rolePrefix = true)) as ->.
  { rewrite validateSpecTags_Exists, <- !(Exists_range_order _ keys _ Hro).
    repeat case_decide; split; try done; tauto. }
  match goal with |- (?l = [] ∧ _) ∧ _ ↔ _ =>
    assert (l = [] ↔
      (Datastore spec ≠ "" ∨ DatastoreCluster spec ≠ "") ∧
      TemplateVM spec ≠ "" ∧
      (ComputeCluster spec ≠ "" ∨ ResourcePool spec ≠ "" ∨ HostSystem spec ≠ "") ∧
      Network spec ≠ "") as ->
  end; [|tauto].
  repeat case_decide;
    repeat match goal with
           | H : ¬ (_ ∧ _) |- _ => apply not_and_l in H; destruct H
           end;
    simpl; intuition (first [discriminate | congruence]).
Qed.

Lemma validation_accepts_witness :
  let spec := scenario.spec_with "eu-1" scenario.tags_a in
  let keys := ["kubernetes.io/role/r"; "kubernetes.io/cluster/a"] in
  range_order (Tags spec) keys ∧
  validation.ValidateVsphereProviderSpec spec scenario.secrets keys = [].
Proof.
  intros spec keys.
  assert (range_order (Tags spec) keys) as Hro
    by (apply (bool_decide_unpack _); vm_compute; reflexivity).
  split; [exact Hro|].
  apply (validation_accepts spec scenario.secrets keys Hro).
  split_and!; try done; try (by left).
  - exists "kubernetes.io/cluster/a". split; [by eexists|reflexivity].
  - exists "kubernetes.io/role/r". split_and!; [by eexists|reflexivity..].
Defined.

(** ** The plugin operations, for any platform: errors, panics, sessions *)

(** The bounds checks of [decodeProviderID] never fail. *)
Lemma decodeProviderID_returns providerID :
  ∃ region machineID, decodeProviderID providerID = Returns (region, machineID).
Proof.
  destruct (strings.HasPrefix providerID providerPrefix) eqn:Hp.
  - apply HasPrefix_inv in Hp as [rest ->]. rewrite decodeProviderID_prefixed.
    destruct (strings.Split rest "/") as [|a [|b [|c l]]]; eauto.
  - rewrite decodeProviderID_no_prefix by done. eauto.
Qed.

(** After the loop of [ListMachines], each name is a key of the tag map with
    its prefix, or it is empty and the map has no such key. *)
Lemma tagKeys_selected tags keys c r :
  range_order tags keys →
  fold_left internal.tagKeysStep keys ("", "") = (c, r) →
  (c = "" ∧ lacks_key tags clusterPrefix ∨
   is_Some (tags !! c) ∧ strings.HasPrefix c clusterPrefix = true) ∧
  (r = "" ∧ lacks_key tags rolePrefix ∨
   is_Some (tags !! r) ∧ strings.HasPrefix r rolePrefix = true).
Proof.
  intros Hro. rewrite (fold_select _ _ _ tagKeysStep_eq). intros [= <- <-]. split.
  - destruct (last (filter _ keys)) as [k|] eqn:Hlast.
    + apply last_filter_selected in Hlast as [HP Hk]. right.
      split; [by apply (range_order_elem tags keys)|done].
    + left. split; [done|]. apply last_None in Hlast. intros key Hkey.
      apply (range_order_elem tags keys _ Hro) in Hkey.
      destruct (strings.HasPrefix key clusterPrefix) eqn:HP; [|done].
      assert (key ∈ filter (λ k, strings.HasPrefix k clusterPrefix = true) keys) as Hin
        by by apply list_elem_of_filter.
      rewrite Hlast in Hin. by apply elem_of_nil in Hin.
  - destruct (last (filter (λ k, _ ∧ _) keys)) as [k|] eqn:Hlast.
    + apply last_filter_selected in Hlast as [[_ HP] Hk]. right.
      split; [by apply (range_order_elem tags keys)|done].
    + left. split; [done|]. apply last_None in Hlast. intros key Hkey.
      apply (range_order_elem tags keys _ Hro) in Hkey.
      destruct (strings.HasPrefix key rolePrefix) eqn:HP; [|done].
      assert (key ∈ filter (λ k, strings.HasPrefix k clusterPrefix = false ∧
                                 strings.HasPrefix k rolePrefix = true) keys) as Hin.
      { apply list_elem_of_filter. split; [|done]. split; [|done].
        destruct (strings.HasPrefix key clusterPrefix) eqn:HC; [|done].
        apply cluster_key_not_role in HC. congruence. }
      rewrite Hlast in Hin. by apply elem_of_nil in Hin.
Qed.

(** The visitor's loop returns exactly on custom values it can read. *)
Lemma ofold_customValueStep_returns c r field cvs acc :
  Forall (well_defined field) cvs →
  ∃ acc', ofold (internal.customValueStep c r field) acc cvs = Returns acc'.
Proof.
  intros Hall. revert acc. induction Hall as [|cv cvs Hcv _ IH]; intros [mc mr].
  - by eexists.
  - cbn [ofold]. destruct cv as [k|k v]; [done|]. destruct Hcv as [def Hdef].
    cbn [internal.customValueStep]. rewrite Hdef.
    destruct (decide (FieldName def = c)); [|destruct (decide (FieldName def = r))];
      cbn [obind]; apply IH.
Qed.

Lemma ofold_customValueStep_panics c r field cvs acc :
  ¬ Forall (well_defined field) cvs →
  ofold (internal.customValueStep c r field) acc cvs = Panics.
Proof.
  revert acc. induction cvs as [|cv cvs IH]; intros [mc mr] Hno.
  - destruct Hno. constructor.
  - cbn [ofold]. destruct cv as [k|k v]; [done|].
    cbn [internal.customValueStep].
    destruct (ByKey field k) as [def|] eqn:Hdef; [|done].
    assert (¬ Forall (well_defined field) cvs) as Hno'.
    { intros Hall. apply Hno. constructor; [by exists def|done]. }
    destruct (decide (FieldName def = c)); [|destruct (decide (FieldName def = r))];
      cbn [obind]; by apply IH.
Qed.

Section SPI_outcomes.

Context {World Client URL VirtualMachine Cmd : Type}.
Variable url_Parse : string → URL + error.
Variable url_UserPassword : URL → string → string → URL.
Variable govmomi_NewClient : URL → bool → World → (Client + error) * World.
Variable Logout : Client → World → World.
Variable UUID : VirtualMachine → World → string.
Variable deleteVM :
  Client → VsphereProviderSpec → string → string → World → (string * option error) * World.
Variable shutDownVM :
  Client → VsphereProviderSpec → string → string → World → (string * option error) * World.
Variable findVM :
  Client → VsphereProviderSpec → string → string → World →
  (option VirtualMachine * option error) * World.
Variable visitVirtualMachines :
  Client → VsphereProviderSpec → @internal.visitorT World VirtualMachine →
  gmap string string → World → outcome (option error * gmap string string) * World.
Variable newClone : string → VsphereProviderSpec → string → Cmd.
Variable Run : Cmd → Client → World → (Cmd * option error) * World.
Variable Clone : Cmd → option VirtualMachine.

Local Abbreviation createVsphereClient :=
  (internal.createVsphereClient url_Parse url_UserPassword govmomi_NewClient).
Local Abbreviation CreateMachine :=
  (internal.CreateMachine url_Parse url_UserPassword govmomi_NewClient Logout UUID
     newClone Run Clone).
Local Abbreviation DeleteMachine :=
  (internal.DeleteMachine url_Parse url_UserPassword govmomi_NewClient Logout deleteVM).
Local Abbreviation ShutDownMachine :=
  (internal.ShutDownMachine url_Parse url_UserPassword govmomi_NewClient Logout shutDownVM).
Local Abbreviation GetMachineStatus :=
  (internal.GetMachineStatus url_Parse url_UserPassword govmomi_NewClient Logout UUID findVM).
Local Abbreviation ListMachines :=
  (internal.ListMachines url_Parse url_UserPassword govmomi_NewClient Logout UUID
     visitVirtualMachines).

(** Unfolds the five operations down to the calls of their collaborators. *)
Ltac unfold_operations :=
  unfold internal.CreateMachine, internal.DeleteMachine, internal.ShutDownMachine,
    internal.GetMachineStatus, internal.ListMachines, internal.defer.

(** When the session cannot be opened, each of the five operations returns
    exactly the error of [createVsphereClient], with the empty identifier or
    the [nil] map, and the platform is left as the failed attempt left it: no
    helper runs and nothing is logged out. *)
Theorem session_error_returned machineName providerID spec secrets keys w err w1 :
  createVsphereClient secrets w = (inr err, w1) →
  CreateMachine machineName spec secrets w = (Returns ("", Some err), w1) ∧
  DeleteMachine machineName providerID spec secrets w = (Returns ("", Some err), w1) ∧
  ShutDownMachine machineName providerID spec secrets w = (Returns ("", Some err), w1) ∧
  GetMachineStatus machineName providerID spec secrets w = (Returns ("", Some err), w1) ∧
  ListMachines spec secrets keys w = (Returns (None, Some err), w1).
Proof. intros Hclient. unfold_operations. by rewrite Hclient. Qed.

(** An operation never returns an identifier together with an error, and
    [ListMachines] returns the [nil] map exactly when it returns an error. *)
Theorem error_excludes_result machineName providerID spec secrets keys w :
  (∀ id err w', CreateMachine machineName spec secrets w = (Returns (id, Some err), w') →
     id = "") ∧
  (∀ id err w', DeleteMachine machineName providerID spec secrets w =
     (Returns (id, Some err), w') → id = "") ∧
  (∀ id err w', ShutDownMachine machineName providerID spec secrets w =
     (Returns (id, Some err), w') → id = "") ∧
  (∀ id err w', GetMachineStatus machineName providerID spec secrets w =
     (Returns (id, Some err), w') → id = "") ∧
  (∀ machineList err w', ListMachines spec secrets keys w = (Returns (machineList, err), w') →
     machineList = None ↔ is_Some err).
Proof.
  unfold_operations.
  destruct (createVsphereClient secrets w) as [[client|e] w1].
  - destruct (decodeProviderID providerID) as [[region machineID]|].
    + split_and!; intros ? ? ?.
      * destruct (Run _ client w1) as [[cmd [e|]] w2]; [by intros [= <- _ _]|].
        by destruct (Clone cmd).
      * by destruct (deleteVM client spec machineName machineID w1) as [[found [e|]] w2];
          intros [= <- _ _].
      * by destruct (shutDownVM client spec machineName machineID w1) as [[found [e|]] w2];
          intros [= <- _ _].
      * destruct (findVM client spec machineName machineID w1) as [[vm [e|]] w2];
          [by intros [= <- _ _]|]. by destruct vm.
      * destruct (fold_left internal.tagKeysStep keys ("", "")) as [c r].
        case_decide; [intros [= <- <- _]; split; [done|by intros [? ?]]|].
        destruct (visitVirtualMachines _ _ _ _ w1) as [[[[e|] ml]|] w2];
          intros [= <- <- _]; split; (done || by intros [? ?] || eauto).
    + split_and!; intros ? ? ?; try done.
      * destruct (Run _ client w1) as [[cmd [e|]] w2]; [by intros [= <- _ _]|].
        by destruct (Clone cmd).
      * destruct (fold_left internal.tagKeysStep keys ("", "")) as [c r].
        case_decide; [intros [= <- <- _]; split; [done|by intros [? ?]]|].
        destruct (visitVirtualMachines _ _ _ _ w1) as [[[[e|] ml]|] w2];
          intros [= <- <- _]; split; (done || by intros [? ?] || eauto).
  - split_and!; intros ? ? ?; intros [= <- <- _]; (done || (split; [eauto|done])).
Qed.

(** A provider identifier that is not the scheme prefix followed by two
    segments is treated like a missing one: [DeleteMachine],
    [ShutDownMachine] and [GetMachineStatus] behave as on the empty
    identifier, leaving the discovery to the machine name. *)
Theorem malformed_identifier_as_missing machineName providerID spec secrets w :
  (¬ ∃ region machineID, two_segments providerID region machineID) →
  DeleteMachine machineName providerID spec secrets w =
    DeleteMachine machineName "" spec secrets w ∧
  ShutDownMachine machineName providerID spec secrets w =
    ShutDownMachine machineName "" spec secrets w ∧
  GetMachineStatus machineName providerID spec secrets w =
    GetMachineStatus machineName "" spec secrets w.
Proof.
  intros Hmal. apply decodeProviderID_other in Hmal.
  unfold_operations. rewrite Hmal.
  change (decodeProviderID "") with (Returns ("", "")). done.
Qed.

(** On a provider spec and secrets that are present (both are pointers in the
    source, which the operations dereference; here they are records) and with
    helpers and SDK calls that return: [DeleteMachine] and [ShutDownMachine] do
    not panic, the slice and the index expressions of [decodeProviderID]
    staying in range; [GetMachineStatus] panics exactly when the session opens
    and [findVM] returns neither a machine nor an error, and [CreateMachine]
    exactly when the session opens and the clone command runs without error but
    leaves no clone. *)
Theorem operation_panics machineName providerID spec secrets w :
  (DeleteMachine machineName providerID spec secrets w).1 ≠ Panics ∧
  (ShutDownMachine machineName providerID spec secrets w).1 ≠ Panics ∧
  ((GetMachineStatus machineName providerID spec secrets w).1 = Panics ↔
   ∃ client w1 region machineID w2,
     createVsphereClient secrets w = (inl client, w1) ∧
     decodeProviderID providerID = Returns (region, machineID) ∧
     findVM client spec machineName machineID w1 = ((None, None), w2)) ∧
  ((CreateMachine machineName spec secrets w).1 = Panics ↔
   ∃ client w1 cmd w2,
     createVsphereClient secrets w = (inl client, w1) ∧
     Run (newClone machineName spec (UserData secrets)) client w1 = ((cmd, None), w2) ∧
     Clone cmd = None).
Proof.
  unfold_operations.
  destruct (decodeProviderID_returns providerID) as (region & machineID & Hdec).
  rewrite Hdec.
  destruct (createVsphereClient secrets w) as [[client|e] w1].
  - split_and!.
    + by destruct (deleteVM client spec machineName machineID w1) as [[found [e|]] w2].
    + by destruct (shutDownVM client spec machineName machineID w1) as [[found [e|]] w2].
    + destruct (findVM client spec machineName machineID w1) as [[[vm|] [e|]] w2] eqn:Hf;
        cbn [fst]; (split; [try done|]).
      * intros (? & ? & ? & ? & ? & [= <- <-] & [= <- <-] & Hf'). congruence.
      * intros (? & ? & ? & ? & ? & [= <- <-] & [= <- <-] & Hf'). congruence.
      * intros (? & ? & ? & ? & ? & [= <- <-] & [= <- <-] & Hf'). congruence.
      * intros _. by exists client, w1, region, machineID, w2.
      * done.
    + destruct (Run _ client w1) as [[cmd [e|]] w2] eqn:HR; cbn [fst].
      * split; [done|]. intros (? & ? & ? & ? & [= <- <-] & HR' & _). congruence.
      * destruct (Clone cmd) eqn:HC; cbn [fst]; split; try done.
        -- intros (? & ? & ? & ? & [= <- <-] & HR' & ?). congruence.
        -- intros _. by exists client, w1, cmd, w2.
  - split_and!; try done; cbn [fst]; (split; [done|]).
    + by intros (? & ? & ? & ? & ? & [=] & _).
    + by intros (? & ? & ? & ? & [=] & _).
Qed.

(** The identifier that [CreateMachine] returns without an error is minted
    for the region of the provider spec from the native id of the clone; it is
    empty exactly when that native id reads as empty. *)
Theorem CreateMachine_identifier machineName spec secrets w id w' :
  CreateMachine machineName spec secrets w = (Returns (id, None), w') →
  ∃ client w1 cmd w2 vm,
    createVsphereClient secrets w = (inl client, w1) ∧
    Run (newClone machineName spec (UserData secrets)) client w1 = ((cmd, None), w2) ∧
    Clone cmd = Some vm ∧
    id = encodeProviderID (Region spec) (UUID vm w2) ∧
    minted_for (Region spec) id ∧
    (id = "" ↔ UUID vm w2 = "") ∧
    w' = Logout client w2.
Proof.
  unfold_operations.
  destruct (createVsphereClient secrets w) as [[client|e] w1]; [|by intros [=]].
  destruct (Run _ client w1) as [[cmd [e|]] w2] eqn:HR; [by intros [=]|].
  destruct (Clone cmd) as [vm|] eqn:HC; [|by intros [=]].
  intros [= <- <-]. exists client, w1, cmd, w2, vm.
  split_and!; try done.
  - apply encodeProviderID_minted.
  - unfold encodeProviderID. by case_decide.
Qed.

(** When the tag map has a key of each prefix and the session opens,
    [ListMachines] runs the scan with a visitor for two keys of the map, one of
    each prefix; it returns the scanned mapping, or the [nil] map with the error
    of the scan, and logs out after the scan in either case and after a
    panic. *)
Theorem ListMachines_scans spec secrets keys w client w1 :
  range_order (Tags spec) keys →
  has_key (Tags spec) clusterPrefix → has_key (Tags spec) rolePrefix →
  createVsphereClient secrets w = (inl client, w1) →
  ∃ c r,
    is_Some (Tags spec !! c) ∧ strings.HasPrefix c clusterPrefix = true ∧
    is_Some (Tags spec !! r) ∧ strings.HasPrefix r rolePrefix = true ∧
    ListMachines spec secrets keys w =
      let '(res, w2) :=
        visitVirtualMachines client spec (internal.visitor UUID spec c r) ∅ w1 in
      (match res with
       | Panics => Panics
       | Returns (Some err, _) => Returns (None, Some err)
       | Returns (None, machineList) => Returns (Some machineList, None)
       end, Logout client w2).
Proof.
  intros Hro (kc & Hkc & HPc) (kr & Hkr & HPr) Hclient.
  destruct (fold_left internal.tagKeysStep keys ("", "")) as [c r] eqn:Hsel.
  destruct (tagKeys_selected _ _ _ _ Hro Hsel) as [[[_ Hc]|[Hc HcP]] [[_ Hr]|[Hr HrP]]].
  - rewrite (Hc kc) in HPc; done.
  - rewrite (Hc kc) in HPc; done.
  - rewrite (Hr kr) in HPr; done.
  - exists c, r. split_and!; try done.
    unfold_operations. rewrite Hclient, Hsel.
    rewrite decide_False; last first.
    { intros [->| ->]; [by cbn in HcP|by cbn in HrP]. }
    by destruct (visitVirtualMachines _ _ _ _ w1) as [[[[e|] ml]|] w2].
Qed.

(** The visitor on one machine.  If every custom value of the machine is a
    string value of a defined field, the visitor returns no error and records
    the machine, under its provider identifier, exactly when the machine
    carries both the field named [clusterName] and the field named [nodeRole];
    the other entries are kept.  Otherwise it panics, whatever the fields of
    the machine. *)
Theorem visitor_behaviour spec clusterName nodeRole vm obj field w machineList :
  clusterName ≠ nodeRole →
  internal.visitor UUID spec clusterName nodeRole vm obj field w machineList =
  if decide (Forall (well_defined field) (CustomValue obj)) then
    Returns
      (None,
       if decide (clusterName ∈ fieldNames field obj ∧ nodeRole ∈ fieldNames field obj)
       then <[encodeProviderID (Region spec) (UUID vm w) := Name obj]> machineList
       else machineList)
  else Panics.
Proof using UUID.
  intros Hcr. unfold internal.visitor. case_decide as Hall.
  - destruct (ofold_customValueStep_returns clusterName nodeRole field _ (false, false) Hall)
      as [[mc mr] Hfold].
    rewrite Hfold. cbn [obind].
    apply ofold_customValueStep in Hfold as [Hc Hr]; [|done].
    change (fieldNames field {| Name := ""; CustomValue := CustomValue obj |})
      with (fieldNames field obj) in Hc, Hr.
    destruct mc, mr; cbn [andb]; case_decide as Hboth; try done; exfalso;
      clear -Hc Hr Hboth; intuition congruence.
  - by rewrite ofold_customValueStep_panics.
Qed.

End SPI_outcomes.

(** ** Sessions are released *)

Section session_balance.

Context {World Client URL VirtualMachine Cmd : Type}.
Variable url_Parse : string → URL + error.
Variable url_UserPassword : URL → string → string → URL.
Variable govmomi_NewClient : URL → bool → World → (Client + error) * World.
Variable Logout : Client → World → World.
Variable UUID : VirtualMachine → World → string.
Variable deleteVM :
  Client → VsphereProviderSpec → string → string → World → (string * option error) * World.
Variable shutDownVM :
  Client → VsphereProviderSpec → string → string → World → (string * option error) * World.
Variable findVM :
  Client → VsphereProviderSpec → string → string → World →
  (option VirtualMachine * option error) * World.
Variable visitVirtualMachines :
  Client → VsphereProviderSpec → @internal.visitorT World VirtualMachine →
  gmap string string → World → outcome (option error * gmap string string) * World.
Variable newClone : string → VsphereProviderSpec → string → Cmd.
Variable Run : Cmd → Client → World → (Cmd * option error) * World.
Variable Clone : Cmd → option VirtualMachine.

(** The number of sessions open on the platform: a successful login opens
    one, a failed login none, a logout closes one, and the helpers neither open
    nor close any. *)
Variable sessionsOf : World → nat.
Hypothesis login_counts : ∀ u insecure w,
  match govmomi_NewClient u insecure w with
  | (inl _, w') => sessionsOf w' = S (sessionsOf w)
  | (inr _, w') => sessionsOf w' = sessionsOf w
  end.
Hypothesis logout_counts : ∀ client w, sessionsOf (Logout client w) = pred (sessionsOf w).
Hypothesis deleteVM_keeps : ∀ client spec name id w,
  sessionsOf (deleteVM client spec name id w).2 = sessionsOf w.
Hypothesis shutDownVM_keeps : ∀ client spec name id w,
  sessionsOf (shutDownVM client spec name id w).2 = sessionsOf w.
Hypothesis findVM_keeps : ∀ client spec name id w,
  sessionsOf (findVM client spec name id w).2 = sessionsOf w.
Hypothesis visit_keeps : ∀ client spec visitor st w,
  sessionsOf (visitVirtualMachines client spec visitor st w).2 = sessionsOf w.
Hypothesis Run_keeps : ∀ cmd client w, sessionsOf (Run cmd client w).2 = sessionsOf w.

Lemma createVsphereClient_counts secrets w :
  match internal.createVsphereClient url_Parse url_UserPassword govmomi_NewClient secrets w with
  | (inl _, w') => sessionsOf w' = S (sessionsOf w)
  | (inr _, w') => sessionsOf w' = sessionsOf w
  end.
Proof.
  unfold internal.createVsphereClient. destruct (url_Parse _); [|done].
  apply login_counts.
Qed.

(** Every operation leaves as many sessions open as it found, on every path:
    when the login fails, when a helper returns an error, when the operation
    succeeds and when it panics. *)
Theorem sessions_balanced machineName providerID spec secrets keys w :
  sessionsOf (internal.CreateMachine url_Parse url_UserPassword govmomi_NewClient Logout
                UUID newClone Run Clone machineName spec secrets w).2 = sessionsOf w ∧
  sessionsOf (internal.DeleteMachine url_Parse url_UserPassword govmomi_NewClient Logout
                deleteVM machineName providerID spec secrets w).2 = sessionsOf w ∧
  sessionsOf (internal.ShutDownMachine url_Parse url_UserPassword govmomi_NewClient Logout
                shutDownVM machineName providerID spec secrets w).2 = sessionsOf w ∧
  sessionsOf (internal.GetMachineStatus url_Parse url_UserPassword govmomi_NewClient Logout
                UUID findVM machineName providerID spec secrets w).2 = sessionsOf w ∧
  sessionsOf (internal.ListMachines url_Parse url_UserPassword govmomi_NewClient Logout
                UUID visitVirtualMachines spec secrets keys w).2 = sessionsOf w.
Proof.
  pose proof (createVsphereClient_counts secrets w) as Hlogin.
  unfold internal.CreateMachine, internal.DeleteMachine, internal.ShutDownMachine,
    internal.GetMachineStatus, internal.ListMachines, internal.defer.
  destruct (internal.createVsphereClient _ _ _ secrets w) as [[client|e] w1]; [|done].
  destruct (decodeProviderID providerID) as [[region machineID]|];
    cbn [snd]; rewrite ?logout_counts, ?Hlogin; split_and!; try done.
  all: try (destruct (fold_left internal.tagKeysStep keys ("", "")) as [c r];
            case_decide; cbn [snd]; [by rewrite logout_counts, Hlogin|]).
  - pose proof (Run_keeps (newClone machineName spec (UserData secrets)) client w1) as HR.
    destruct (Run _ client w1) as [[cmd [e|]] w2]; cbn [snd] in *;
      [|destruct (Clone cmd)]; cbn [snd]; by rewrite logout_counts, HR, Hlogin.
  - pose proof (deleteVM_keeps client spec machineName machineID w1) as HD.
    destruct (deleteVM client spec machineName machineID w1) as [[found [e|]] w2];
      cbn [snd] in *; by rewrite logout_counts, HD, Hlogin.
  - pose proof (shutDownVM_keeps client spec machineName machineID w1) as HD.
    destruct (shutDownVM client spec machineName machineID w1) as [[found [e|]] w2];
      cbn [snd] in *; by rewrite logout_counts, HD, Hlogin.
  - pose proof (findVM_keeps client spec machineName machineID w1) as HD.
    destruct (findVM client spec machineName machineID w1) as [[[vm|] [e|]] w2];
      cbn [snd] in *; by rewrite logout_counts, HD, Hlogin.
  - pose proof (visit_keeps client spec (internal.visitor UUID spec c r) ∅ w1) as HV.
    destruct (visitVirtualMachines _ _ _ _ w1) as [[[[e|] ml]|] w2];
      cbn [snd] in *; by rewrite logout_counts, HV, Hlogin.
  - pose proof (Run_keeps (newClone machineName spec (UserData secrets)) client w1) as HR.
    destruct (Run _ client w1) as [[cmd [e|]] w2]; cbn [snd] in *;
      [|destruct (Clone cmd)]; cbn [snd]; by rewrite logout_counts, HR, Hlogin.
  - pose proof (visit_keeps client spec (internal.visitor UUID spec c r) ∅ w1) as HV.
    destruct (visitVirtualMachines _ _ _ _ w1) as [[[[e|] ml]|] w2];
      cbn [snd] in *; by rewrite logout_counts, HV, Hlogin.
Qed.

End session_balance.

(** ** The further properties at concrete inputs *)

Module further.

(** A platform that refuses the login. *)
Lemma refused_login :
  let inv := {| platform.machines := [scenario.machine_a];
                platform.fieldDefs := scenario.fields;
                platform.loginFault := Some (Errorf "incorrect user name or password");
                platform.sessions := 0 |} in
  platform.createVsphereClient scenario.secrets inv =
    (inr (Errorf "incorrect user name or password"), inv).
Proof. reflexivity. Qed.

Lemma session_error_returned_witness :
  let inv := {| platform.machines := [scenario.machine_a];
                platform.fieldDefs := scenario.fields;
                platform.loginFault := Some (Errorf "incorrect user name or password");
                platform.sessions := 0 |} in
  let spec := scenario.spec_with "eu-1" scenario.tags_a in
  platform.createVsphereClient scenario.secrets inv =
    (inr (Errorf "incorrect user name or password"), inv) ∧
  platform.CreateMachine "vm-1" spec scenario.secrets inv =
    (Returns ("", Some (Errorf "incorrect user name or password")), inv) ∧
  platform.DeleteMachine "vm-1" "vsphere://eu-1/uuid-1" spec scenario.secrets inv =
    (Returns ("", Some (Errorf "incorrect user name or password")), inv).
Proof.
  intros inv spec.
  pose proof (session_error_returned platform.url_Parse platform.url_UserPassword
                platform.NewClient platform.Logout platform.UUID platform.deleteVM
                platform.shutDownVM platform.findVM platform.visitVirtualMachines
                platform.newClone platform.Run platform.cloned
                "vm-1" "vsphere://eu-1/uuid-1" spec scenario.secrets
                ["kubernetes.io/cluster/a"; "kubernetes.io/role/r"] inv
                (Errorf "incorrect user name or password") inv eq_refl)
    as (Hcreate & Hdelete & _).
  split_and!; [reflexivity|exact Hcreate|exact Hdelete].
Defined.

Lemma error_excludes_result_witness :
  let inv := scenario.inventory [scenario.machine_a; scenario.machine_a] in
  let spec := scenario.spec_with "eu-1" scenario.tags_a in
  platform.DeleteMachine "vm-1" "" spec scenario.secrets inv =
    (Returns ("", Some platform.AmbiguousNameError), inv) ∧
  "" = "".
Proof.
  intros inv spec. split; [reflexivity|].
  pose proof (error_excludes_result platform.url_Parse platform.url_UserPassword
                platform.NewClient platform.Logout platform.UUID platform.deleteVM
                platform.shutDownVM platform.findVM platform.visitVirtualMachines
                platform.newClone platform.Run platform.cloned
                "vm-1" "" spec scenario.secrets [] inv) as (_ & Hdelete & _).
  exact (Hdelete "" platform.AmbiguousNameError inv eq_refl).
Defined.

Lemma garbage_malformed : ¬ ∃ region machineID, two_segments "garbage" region machineID.
Proof. intros (r & m & Heq & _). discriminate Heq. Qed.

Lemma malformed_identifier_as_missing_witness :
  let inv := scenario.inventory [scenario.machine_a] in
  let spec := scenario.spec_with "eu-1" scenario.tags_a in
  (¬ ∃ region machineID, two_segments "garbage" region machineID) ∧
  platform.DeleteMachine "vm-1" "garbage" spec scenario.secrets inv =
    platform.DeleteMachine "vm-1" "" spec scenario.secrets inv ∧
  platform.GetMachineStatus "vm-1" "garbage" spec scenario.secrets inv =
    platform.GetMachineStatus "vm-1" "" spec scenario.secrets inv.
Proof.
  intros inv spec.
  pose proof (malformed_identifier_as_missing platform.url_Parse platform.url_UserPassword
                platform.NewClient platform.Logout platform.UUID platform.deleteVM
                platform.shutDownVM platform.findVM
                "vm-1" "garbage" spec scenario.secrets inv garbage_malformed)
    as (Hdelete & _ & Hstatus).
  split_and!; [exact garbage_malformed|exact Hdelete|exact Hstatus].
Defined.

Lemma operation_panics_witness :
  let inv := scenario.inventory [scenario.machine_a] in
  let spec := scenario.spec_with "eu-1" scenario.tags_a in
  (platform.DeleteMachine "vm-1" "vsphere://eu-1/uuid-1" spec scenario.secrets inv).1 ≠ Panics.
Proof.
  intros inv spec.
  exact (proj1 (operation_panics platform.url_Parse platform.url_UserPassword
                  platform.NewClient platform.Logout platform.UUID platform.deleteVM
                  platform.shutDownVM platform.findVM
                  platform.newClone platform.Run platform.cloned
                  "vm-1" "vsphere://eu-1/uuid-1" spec scenario.secrets inv)).
Defined.

(** A [findVM] that reports an absent machine by a [nil] handle and a [nil]
    error makes [GetMachineStatus] panic. *)
Example GetMachineStatus_nil_handle :
  (internal.GetMachineStatus platform.url_Parse platform.url_UserPassword
     platform.NewClient platform.Logout platform.UUID
     (λ _ _ _ _ inv, ((None, None), inv))
     "vm-1" "" (scenario.spec_with "eu-1" scenario.tags_a) scenario.secrets
     (scenario.inventory [])).1 = Panics.
Proof. reflexivity. Qed.

Lemma CreateMachine_identifier_witness :
  let inv := scenario.inventory [scenario.machine_a] in
  let spec := scenario.spec_with "eu-1" scenario.tags_a in
  ∃ inv',
    platform.CreateMachine "vm-9" spec scenario.secrets inv =
      (Returns ("vsphere://eu-1/uuid-vm-9", None), inv') ∧
    minted_for (Region spec) "vsphere://eu-1/uuid-vm-9".
Proof.
  intros inv spec. eexists. split; [reflexivity|].
  destruct (CreateMachine_identifier platform.url_Parse platform.url_UserPassword
              platform.NewClient platform.Logout platform.UUID
              platform.newClone platform.Run platform.cloned
              "vm-9" spec scenario.secrets inv _ _ eq_refl)
    as (? & ? & ? & ? & ? & _ & _ & _ & _ & Hminted & _).
  exact Hminted.
Defined.

Lemma ListMachines_scans_witness :
  let inv := scenario.inventory [scenario.machine_a] in
  let spec := scenario.spec_with "eu-1" scenario.tags_a in
  let keys := ["kubernetes.io/cluster/a"; "kubernetes.io/role/r"] in
  range_order (Tags spec) keys ∧
  has_key (Tags spec) clusterPrefix ∧ has_key (Tags spec) rolePrefix ∧
  platform.createVsphereClient scenario.secrets inv = (inl 0, platform.with_sessions inv 1) ∧
  ∃ c r,
    is_Some (Tags spec !! c) ∧ strings.HasPrefix c clusterPrefix = true ∧
    is_Some (Tags spec !! r) ∧ strings.HasPrefix r rolePrefix = true ∧
    platform.ListMachines spec scenario.secrets keys inv =
      let '(res, w2) :=
        platform.visitVirtualMachines 0 spec (internal.visitor platform.UUID spec c r) ∅
          (platform.with_sessions inv 1) in
      (match res with
       | Panics => Panics
       | Returns (Some err, _) => Returns (None, Some err)
       | Returns (None, machineList) => Returns (Some machineList, None)
       end, platform.Logout 0 w2).
Proof.
  intros inv spec keys.
  assert (range_order (Tags spec) keys) as Hro
    by (apply (bool_decide_unpack _); vm_compute; reflexivity).
  assert (has_key (Tags spec) clusterPrefix) as Hc.
  { exists "kubernetes.io/cluster/a". split; [by eexists|reflexivity]. }
  assert (has_key (Tags spec) rolePrefix) as Hr.
  { exists "kubernetes.io/role/r". split; [by eexists|reflexivity]. }
  split_and!; [exact Hro|exact Hc|exact Hr|reflexivity|].
  exact (ListMachines_scans platform.url_Parse platform.url_UserPassword
           platform.NewClient platform.Logout platform.UUID platform.visitVirtualMachines
           spec scenario.secrets keys inv 0 (platform.with_sessions inv 1)
           Hro Hc Hr eq_refl).
Defined.

Lemma visitor_behaviour_witness :
  "kubernetes.io/cluster/a" ≠ "kubernetes.io/role/r" ∧
  internal.visitor platform.UUID (scenario.spec_with "eu-1" scenario.tags_a)
    "kubernetes.io/cluster/a" "kubernetes.io/role/r"
    scenario.machine_a (platform.entity scenario.machine_a) scenario.fields
    (scenario.inventory [scenario.machine_a]) ∅ =
  Returns (None, {[ "vsphere://eu-1/uuid-1" := "vm-1" ]}).
Proof.
  split; [done|].
  rewrite (visitor_behaviour platform.UUID (scenario.spec_with "eu-1" scenario.tags_a)
             "kubernetes.io/cluster/a" "kubernetes.io/role/r"
             scenario.machine_a (platform.entity scenario.machine_a) scenario.fields
             (scenario.inventory [scenario.machine_a]) ∅) by done.
  vm_compute. reflexivity.
Defined.

(** A custom value without a field definition makes the visitor panic, also
    on a machine that carries neither tag. *)
Example visitor_undefined_field :
  internal.visitor platform.UUID (scenario.spec_with "eu-1" scenario.tags_a)
    "kubernetes.io/cluster/a" "kubernetes.io/role/r" scenario.machine_a
    {| Name := "vm-3"; CustomValue := [CustomFieldStringValue 99 "x"] |}
    scenario.fields (scenario.inventory []) ∅ = Panics.
Proof. reflexivity. Qed.

Lemma sessions_balanced_witness :
  let inv := scenario.inventory [scenario.machine_a] in
  let spec := scenario.spec_with "eu-1" scenario.tags_a in
  platform.sessions (platform.DeleteMachine "vm-1" "" spec scenario.secrets inv).2 =
    platform.sessions inv ∧
  platform.sessions (platform.CreateMachine "vm-9" spec scenario.secrets inv).2 =
    platform.sessions inv.
Proof.
  intros inv spec.
  assert (∀ u insecure w,
            match platform.NewClient u insecure w with
            | (inl _, w') => platform.sessions w' = S (platform.sessions w)
            | (inr _, w') => platform.sessions w' = platform.sessions w
            end) as Hlogin.
  { intros u insecure w. unfold platform.NewClient.
    destruct (platform.loginFault w); reflexivity. }
  assert (∀ client s name id w,
            platform.sessions (platform.deleteVM client s name id w).2 =
            platform.sessions w) as Hdelete.
  { intros client s name id w. unfold platform.deleteVM.
    destruct (platform.resolve w name id) as [m| |]; [destruct (platform.fault m)|..];
      reflexivity. }
  assert (∀ client s name id w,
            platform.sessions (platform.shutDownVM client s name id w).2 =
            platform.sessions w) as Hshut.
  { intros client s name id w. unfold platform.shutDownVM.
    destruct (platform.resolve w name id) as [m| |];
      [destruct (platform.poweredOn m); [destruct (platform.fault m)|]|..];
      reflexivity. }
  assert (∀ client s name id w,
            platform.sessions (platform.findVM client s name id w).2 =
            platform.sessions w) as Hfind.
  { intros client s name id w. unfold platform.findVM.
    destruct (platform.resolve w name id); reflexivity. }
  pose proof (sessions_balanced platform.url_Parse platform.url_UserPassword
                platform.NewClient platform.Logout platform.UUID platform.deleteVM
                platform.shutDownVM platform.findVM platform.visitVirtualMachines
                platform.newClone platform.Run platform.cloned
                platform.sessions Hlogin (λ _ _, eq_refl) Hdelete Hshut Hfind
                (λ _ _ _ _ _, eq_refl) (λ _ _ _, eq_refl)
                "vm-1" "" spec scenario.secrets [] inv) as (Hc & Hd & _).
  split; [exact Hd|].
  exact (proj1 (sessions_balanced platform.url_Parse platform.url_UserPassword
                  platform.NewClient platform.Logout platform.UUID platform.deleteVM
                  platform.shutDownVM platform.findVM platform.visitVirtualMachines
                  platform.newClone platform.Run platform.cloned
                  platform.sessions Hlogin (λ _ _, eq_refl) Hdelete Hshut Hfind
                  (λ _ _ _ _ _, eq_refl) (λ _ _ _, eq_refl)
                  "vm-9" "" spec scenario.secrets [] inv)).
Defined.

End further.
